(** * sorare_bot.py: the Sorare listing bot, embedded and verified

    The bot authenticates once against the Sorare API, then polls the five
    most recently listed cards every five minutes and forwards one Discord
    message per card.  Everything it does is I/O, so the embedding is a
    state-and-exception monad over the bot object ([self]) and the trace of
    the I/O events performed so far; the outside world (HTTP endpoints,
    GraphQL endpoint, bcrypt, the interpreter's [repr]) is an [env] of
    oracles that answer each call from the history. *)

From Stdlib Require Import String Ascii List ZArith Lia Bool DecimalString.
Import ListNotations.
Open Scope string_scope.
Open Scope Z_scope.

(** ** Python values decoded from JSON *)

(** What [response.json()] and [Client.execute] hand to the bot.  A dict is
    its list of bindings (lookup takes the first binding of a key).  Numbers
    are integers: the bot applies no arithmetic, and a float behaves like an
    int under every operation below. *)
#[warnings="-register-all"]
Inductive json : Type :=
| JNull
| JBool (b : bool)
| JNum (n : Z)
| JStr (s : string)
| JArr (items : list json)
| JObj (fields : list (string * json)).

(** An exception: its class name and [str(e)].  Every exception of the model
    is a subclass of [Exception], which is what all four handlers of the
    source catch. *)
Record exn : Type := Exn { exn_class : string; exn_str : string }.

Inductive outcome (A : Type) : Type :=
| Ret (a : A)
| Raise (e : exn).
Arguments Ret {A} a.
Arguments Raise {A} e.

Definition type_name (v : json) : string :=
  match v with
  | JNull => "NoneType"
  | JBool _ => "bool"
  | JNum _ => "int"
  | JStr _ => "str"
  | JArr _ => "list"
  | JObj _ => "dict"
  end.

(** [bool(v)]: what [if not salt], [if errors := ...] and
    [... if price_data else ...] test. *)
Definition truthy (v : json) : bool :=
  match v with
  | JNull => false
  | JBool b => b
  | JNum n => negb (n =? 0)
  | JStr s => negb (String.eqb s "")
  | JArr l => match l with [] => false | _ => true end
  | JObj l => match l with [] => false | _ => true end
  end.

Fixpoint assoc (k : string) (l : list (string * json)) : option json :=
  match l with
  | [] => None
  | (k', v) :: l' => if String.eqb k k' then Some v else assoc k l'
  end.

Definition AttributeError (v : json) (attr : string) : exn :=
  Exn "AttributeError"
      ("'" ++ type_name v ++ "' object has no attribute '" ++ attr ++ "'").

Definition KeyError (k : string) : exn := Exn "KeyError" ("'" ++ k ++ "'").

Definition not_subscriptable (v : json) : exn :=
  Exn "TypeError" ("'" ++ type_name v ++ "' object is not subscriptable").

Definition not_iterable (v : json) : exn :=
  Exn "TypeError" ("'" ++ type_name v ++ "' object is not iterable").

(** [v.get(k, dflt)]: only a dict has the method. *)
Definition py_get (v : json) (k : string) (dflt : json) : outcome json :=
  match v with
  | JObj l => Ret (match assoc k l with Some x => x | None => dflt end)
  | _ => Raise (AttributeError v "get")
  end.

(** [v[k]] with a string key [k]. *)
Definition py_item (v : json) (k : string) : outcome json :=
  match v with
  | JObj l => match assoc k l with
              | Some x => Ret x
              | None => Raise (KeyError k)
              end
  | JArr _ => Raise (Exn "TypeError"
                         "list indices must be integers or slices, not str")
  | JStr _ => Raise (Exn "TypeError"
                         "string indices must be integers, not 'str'")
  | _ => Raise (not_subscriptable v)
  end.

(** [v[0]].  A dict decoded from JSON has string keys only, so the integer
    key is never found. *)
Definition py_first (v : json) : outcome json :=
  match v with
  | JArr (x :: _) => Ret x
  | JArr [] => Raise (Exn "IndexError" "list index out of range")
  | JStr (String c _) => Ret (JStr (String c EmptyString))
  | JStr EmptyString => Raise (Exn "IndexError" "string index out of range")
  | JObj _ => Raise (Exn "KeyError" "0")
  | _ => Raise (not_subscriptable v)
  end.

Fixpoint chars (s : string) : list json :=
  match s with
  | EmptyString => []
  | String c s' => JStr (String c EmptyString) :: chars s'
  end.

(** The items a [for] loop draws from [v]: a dict iterates over its keys. *)
Definition py_iter (v : json) : outcome (list json) :=
  match v with
  | JArr l => Ret l
  | JObj l => Ret (map (fun kv => JStr (fst kv)) l)
  | JStr s => Ret (chars s)
  | _ => Raise (not_iterable v)
  end.

(** ** The outside world *)

Definition headers : Type := list (string * string).

(** A [gql.Client] over a [RequestsHTTPTransport]. *)
Record gql_client : Type :=
  Client { transport_url : string; transport_headers : headers }.

(** The two documents the bot executes, with what varies in them. *)
Inductive gql_request : Type :=
| SignIn (email : option string) (hashed_pw : string) (aud : string)
| ListedCards (first : Z) (listed : bool).

(** A [requests.Response]: [json_body] is what [response.json()] does. *)
Record http_response : Type :=
  Response { status_code : Z; reason : string; url : string;
             json_body : outcome json }.

Inductive method : Type := Authenticate | FetchListings.

(** I/O events, oldest first in a trace. *)
Inductive event : Type :=
| EvGet (u : string) (h : headers)
| EvExecute (c : gql_client) (q : gql_request)
| EvPost (u : option string) (body : json) (timeout : Z)
| EvPrint (line : string)
| EvSleep (seconds : Z).

(** Ghost markers [run] leaves around its calls of [_authenticate] and
    [_fetch_listings], oldest first: [Called] records [self.client] at the
    call, [Returned] is logged when the method returns normally.  They are
    kept apart from the trace, so no oracle can see them. *)
Inductive call_event : Type :=
| Called (m : method) (session : option gql_client)
| Returned (m : method).

(** Each oracle answers a call from the events that precede it and the
    call's arguments; quantifying over [env] covers every behaviour of the
    network.  [py_repr] is the interpreter's [repr]. *)
Record env : Type :=
  Env { requests_get : list event -> string -> headers -> outcome http_response;
        requests_post : list event -> option string -> json -> Z ->
                        outcome http_response;
        gql_execute : list event -> gql_client -> gql_request -> outcome json;
        bcrypt_hashpw : string -> string -> outcome string;
        py_repr : json -> string }.

Definition string_of_Z (n : Z) : string := NilZero.string_of_int (Z.to_int n).

(** [Response.raise_for_status] of requests: only 4xx and 5xx raise. *)
Definition raise_for_status (r : http_response) : outcome unit :=
  let st := status_code r in
  if (400 <=? st) && (st <? 500) then
    Raise (Exn "HTTPError" (string_of_Z st ++ " Client Error: " ++ reason r
                            ++ " for url: " ++ url r))
  else if (500 <=? st) && (st <? 600) then
    Raise (Exn "HTTPError" (string_of_Z st ++ " Server Error: " ++ reason r
                            ++ " for url: " ++ url r))
  else Ret tt.

(** ** The bot object and the monad *)

(** [SorareBot]: the three credentials are [os.getenv] results, so each may
    be [None]. *)
Record bot : Type :=
  Bot { email : option string; password : option string;
        webhook : option string; client : option gql_client }.

(** [SorareBot.__init__] *)
Definition __init__ (e p w : option string) : bot :=
  {| email := e; password := p; webhook := w; client := None |}.

Record state : Type :=
  State { self : bot; trace : list event; calls : list call_event }.

Definition M (A : Type) : Type := state -> outcome A * state.

Definition ret {A} (a : A) : M A := fun s => (Ret a, s).

Definition raise {A} (e : exn) : M A := fun s => (Raise e, s).

Definition bind {A B} (m : M A) (k : A -> M B) : M B :=
  fun s => match m s with
           | (Ret a, s') => k a s'
           | (Raise e, s') => (Raise e, s')
           end.

(** [try: m  except Exception as e: h e] *)
Definition try_except {A} (m : M A) (h : exn -> M A) : M A :=
  fun s => match m s with
           | (Ret a, s') => (Ret a, s')
           | (Raise e, s') => h e s'
           end.

Definition lift {A} (o : outcome A) : M A := fun s => (o, s).

(** [s] after the I/O events [evs]. *)
Definition after (s : state) (evs : list event) : state :=
  {| self := self s; trace := trace s ++ evs; calls := calls s |}.

Definition emit (ev : event) : M unit := fun s => (Ret tt, after s [ev]).

Definition mark (c : call_event) : M unit :=
  fun s => (Ret tt, {| self := self s; trace := trace s;
                       calls := calls s ++ [c] |}).

Definition get_self : M bot := fun s => (Ret (self s), s).

Definition get_trace : M (list event) := fun s => (Ret (trace s), s).

Declare Scope py_scope.
Delimit Scope py_scope with py.
Notation "x <- m ;; k" := (bind m (fun x => k))
  (at level 61, m at next level, right associativity) : py_scope.
Notation "m ;; k" := (bind m (fun _ => k))
  (at level 61, right associativity) : py_scope.
Open Scope py_scope.

Definition obind {A B} (o : outcome A) (k : A -> outcome B) : outcome B :=
  match o with
  | Ret a => k a
  | Raise e => Raise e
  end.
Notation "'let?' x ':=' o 'in' k" := (obind o (fun x => k))
  (at level 10, x name, k at level 200) : py_scope.

Fixpoint mapM {A B} (f : A -> outcome B) (l : list A) : outcome (list B) :=
  match l with
  | [] => Ret []
  | a :: l' => let? b := f a in let? bs := mapM f l' in Ret (b :: bs)
  end.

Fixpoint for_each {A} (l : list A) (body : A -> M unit) : M unit :=
  match l with
  | [] => ret tt
  | a :: l' => body a ;; for_each l' body
  end.

(** ** The methods of [SorareBot] *)

Definition nl : string := String (ascii_of_nat 10) EmptyString.

Definition api_users : string := "https://api.sorare.com/api/v1/users/".
Definition api_graphql : string := "https://api.sorare.com/graphql".
Definition content_type : string * string :=
  ("Content-Type", "application/json").

(** A card as [_fetch_listings] appends it: a dict of four entries. *)
Record listing : Type :=
  Listing { slug : json; price : json; currency : json; player : json }.

Inductive run_status : Type :=
| Exited        (* [run] returned: the process stops *)
| StillLooping. (* the [while True] loop is still going when fuel runs out *)

Section Bot.

Variable E : env.

(** [str(v)], as an f-string or [print] formats a value. *)
Definition py_str (v : json) : string :=
  match v with
  | JStr s => s
  | _ => py_repr E v
  end.

Definition opt_str (o : option string) : string :=
  match o with
  | Some s => s
  | None => "None"
  end.

(** [x.encode()] *)
Definition encode (v : json) : outcome string :=
  match v with
  | JStr s => Ret s
  | _ => Raise (AttributeError v "encode")
  end.

Definition opt_json (o : option string) : json :=
  match o with
  | Some s => JStr s
  | None => JNull
  end.

(** The I/O primitives: the event is recorded, the oracle answers from the
    trace before it. *)
Definition get (u : string) (h : headers) : M http_response :=
  fun s => (requests_get E (trace s) u h, after s [EvGet u h]).

Definition post (u : option string) (body : json) (timeout : Z) : M unit :=
  fun s => (match requests_post E (trace s) u body timeout with
            | Ret _ => Ret tt
            | Raise e => Raise e
            end,
            after s [EvPost u body timeout]).

(** [c.execute(q)]; on [None] the attribute lookup fails before any I/O. *)
Definition execute (c : option gql_client) (q : gql_request) : M json :=
  match c with
  | None => raise (AttributeError JNull "execute")
  | Some cl =>
      fun s => (gql_execute E (trace s) cl q, after s [EvExecute cl q])
  end.

Definition print (line : string) : M unit := emit (EvPrint line).

Definition sleep (seconds : Z) : M unit := emit (EvSleep seconds).

Definition set_client (c : gql_client) : M unit :=
  fun s => (Ret tt,
            {| self := {| email := email (self s);
                          password := password (self s);
                          webhook := webhook (self s);
                          client := Some c |};
               trace := trace s; calls := calls s |}).

Definition _get_salt : M json :=
  try_except
    (b <- get_self ;;
     response <- get (api_users ++ opt_str (email b)) [content_type] ;;
     lift (raise_for_status response) ;;
     body <- lift (json_body response) ;;
     lift (py_get body "salt" JNull))
    (fun e =>
       print ("⚠️ Error getting salt: " ++ exn_str e) ;;
       ret JNull).

Definition _authenticate : M unit :=
  salt <- _get_salt ;;
  if negb (truthy salt) then
    raise (Exn "Exception" "Failed to retrieve salt from Sorare API.")
  else
    b <- get_self ;;
    pw <- lift (encode (opt_json (password b))) ;;
    salt_bytes <- lift (encode salt) ;;
    hashed_pw <- lift (bcrypt_hashpw E pw salt_bytes) ;;
    let temp_client := Client api_graphql [content_type] in
    result <- execute (Some temp_client)
                      (SignIn (email b) hashed_pw "sorare-bot") ;;
    sign_in <- lift (py_get result "signIn" (JObj [])) ;;
    errors <- lift (py_get sign_in "errors" JNull) ;;
    if truthy errors then
      raise (Exn "Exception" ("Auth failed: " ++ py_str errors))
    else
      token <- lift (let? si := py_item result "signIn" in
                     let? jwt := py_item si "jwtToken" in
                     py_item jwt "token") ;;
      set_client (Client api_graphql
                         [("Authorization", "Bearer " ++ py_str token);
                          ("JWT-AUD", "sorare-bot");
                          content_type]).

Definition _send_alert (message : string) : M unit :=
  try_except
    (b <- get_self ;;
     post (webhook b) (JObj [("content", JStr message)]) 5)
    (fun e => print ("⚠️ Failed to send Discord alert: " ++ exn_str e)).

(** [price_data[0]["node"]["price"][field] if price_data else "N/A"] *)
Definition offer_field (price_data : json) (field : string) : outcome json :=
  if truthy price_data then
    let? edge := py_first price_data in
    let? node := py_item edge "node" in
    let? pr := py_item node "price" in
    py_item pr field
  else Ret (JStr "N/A").

(** [card.get("saleOffers", {}).get("edges", [])] *)
Definition sale_edges (card : json) : outcome json :=
  let? offers := py_get card "saleOffers" (JObj []) in
  py_get offers "edges" (JArr []).

(** The body of the [for card in ...] loop. *)
Definition card_listing (card : json) : outcome listing :=
  let? price_data := sale_edges card in
  let? price := offer_field price_data "amount" in
  let? currency := offer_field price_data "currency" in
  let? slug := py_item card "slug" in
  let? pl := py_item card "player" in
  let? name := py_item pl "displayName" in
  Ret {| slug := slug; price := price; currency := currency;
         player := name |}.

(** [result.get("football", {}).get("cards", {}).get("nodes", [])] *)
Definition card_nodes (result : json) : outcome json :=
  let? football := py_get result "football" (JObj []) in
  let? cards := py_get football "cards" (JObj []) in
  py_get cards "nodes" (JArr []).

(** Lines 126-139: everything after the [try] statement. *)
Definition parse_listings (result : json) : outcome (list listing) :=
  let? nodes := card_nodes result in
  let? cards := py_iter nodes in
  mapM card_listing cards.

Definition listings_query : gql_request := ListedCards 5 true.

Definition _fetch_listings : M (list listing) :=
  fetched <- try_except
               (b <- get_self ;;
                result <- execute (client b) listings_query ;;
                print ("API Response: " ++ py_str result) ;;
                ret (Some result))
               (fun e =>
                  print ("⚠️ API request failed: " ++ exn_str e) ;;
                  _send_alert ("⚠️ API request failed: " ++ exn_str e) ;;
                  ret None) ;;
  match fetched with
  | None => ret []
  | Some result => lift (parse_listings result)
  end.

(** A call of a method from [run], between its ghost markers. *)
Definition call {A} (m : method) (body : M A) : M A :=
  b <- get_self ;;
  mark (Called m (client b)) ;;
  r <- body ;;
  mark (Returned m) ;;
  ret r.

Definition card_message (card : listing) : string :=
  "⚽ " ++ py_str (player card) ++ nl ++
  "💰 " ++ py_str (price card) ++ " " ++ py_str (currency card) ++ nl ++
  "🔗 https://sorare.com/cards/" ++ py_str (slug card).

(** The inner [try] block of [run]. *)
Definition cycle_body : M unit :=
  listings <- call FetchListings _fetch_listings ;;
  for_each listings
           (fun card =>
              let message := card_message card in
              print message ;;
              _send_alert message) ;;
  sleep 300.

(** The inner [except] block of [run]. *)
Definition cycle_handler (e : exn) : M unit :=
  let error_msg := "⚠️ Unexpected error: " ++ exn_str e in
  print error_msg ;;
  _send_alert error_msg ;;
  sleep 60.

Definition cycle : M unit := try_except cycle_body cycle_handler.

(** [while True:] cut after [fuel] iterations.  The loop has no [break]
    and no [return]: it ends only by an exception of an iteration. *)
Fixpoint loop (fuel : nat) : M run_status :=
  match fuel with
  | O => ret StillLooping
  | S fuel' => cycle ;; loop fuel'
  end.

(** The outer [except] block of [run]. *)
Definition critical_handler (e : exn) : M run_status :=
  let error_msg := "🔴 Critical failure: " ++ exn_str e in
  print error_msg ;;
  _send_alert error_msg ;;
  ret Exited.

Definition run (fuel : nat) : M run_status :=
  try_except
    (call Authenticate _authenticate ;;
     _send_alert "🟢 Sorare Bot Started Successfully" ;;
     print "🟢 Bot is running..." ;;
     loop fuel)
    critical_handler.

End Bot.

(** ** Vocabulary of the statements *)

(** [sub] occurs in [s]. *)
Definition contains (sub s : string) : Prop :=
  exists pre post, s = pre ++ sub ++ post.

(** The events a run appended to the trace [old] it started from. *)
Definition since (old new : list event) : list event :=
  skipn (length old) new.

Definition is_post (ev : event) : bool :=
  match ev with EvPost _ _ _ => true | _ => false end.

Definition is_execute (ev : event) : bool :=
  match ev with EvExecute _ _ => true | _ => false end.

Definition is_called (m : method) (c : call_event) : bool :=
  match c, m with
  | Called Authenticate _, Authenticate => true
  | Called FetchListings _, FetchListings => true
  | _, _ => false
  end.

Definition is_sleep (ev : event) : bool :=
  match ev with EvSleep _ => true | _ => false end.

Definition is_print (ev : event) : bool :=
  match ev with EvPrint _ => true | _ => false end.

(** How many events of a kind a list holds. *)
Definition count (p : event -> bool) (evs : list event) : nat :=
  length (filter p evs).

Definition alert_body (message : string) : json :=
  JObj [("content", JStr message)].

(** What one call of [_send_alert] appends to the trace [tr]. *)
Definition alert_events (E : env) (tr : list event) (w : option string)
           (message : string) : list event :=
  EvPost w (alert_body message) 5 ::
  match requests_post E tr w (alert_body message) 5 with
  | Ret _ => []
  | Raise e => [EvPrint ("⚠️ Failed to send Discord alert: " ++ exn_str e)]
  end.

(** What [self.client.execute(query)] of [_fetch_listings] does in [s]. *)
Definition fetch_request (E : env) (s : state) : outcome json :=
  match client (self s) with
  | None => Raise (AttributeError JNull "execute")
  | Some cl => gql_execute E (trace s) cl listings_query
  end.

(** The event of that request: none when there is no client to ask. *)
Definition fetch_request_events (s : state) : list event :=
  match client (self s) with
  | None => []
  | Some cl => [EvExecute cl listings_query]
  end.

Definition salt_error : exn :=
  Exn "Exception" "Failed to retrieve salt from Sorare API.".

Definition salt_url (b : bot) : string := api_users ++ opt_str (email b).

(** The GET of [_get_salt]. *)
Definition salt_get (s : state) : event :=
  EvGet (salt_url (self s)) [content_type].

(** What the salt endpoint makes of the GET that [_get_salt] issues in [s]:
    the value [_get_salt] returns, or the exception it swallows. *)
Definition salt_reply (E : env) (s : state) : outcome json :=
  let? response := requests_get E (trace s) (salt_url (self s))
                                [content_type] in
  let? _ := raise_for_status response in
  let? body := json_body response in
  py_get body "salt" JNull.


(** [bcrypt.hashpw(self.password.encode(), salt.encode())] *)
Definition hashed_password (E : env) (b : bot) (salt : json) : outcome string :=
  let? pw := encode (opt_json (password b)) in
  let? salt_bytes := encode salt in
  bcrypt_hashpw E pw salt_bytes.

Definition temp_client : gql_client := Client api_graphql [content_type].

Definition sign_in_request (b : bot) (hashed_pw : string) : gql_request :=
  SignIn (email b) hashed_pw "sorare-bot".

(** [result.get("signIn", {}).get("errors")] *)
Definition sign_in_errors (result : json) : outcome json :=
  let? sign_in := py_get result "signIn" (JObj []) in
  py_get sign_in "errors" JNull.

(** [result['signIn']['jwtToken']['token']] *)
Definition issued_token (result : json) : outcome json :=
  let? sign_in := py_item result "signIn" in
  let? jwt := py_item sign_in "jwtToken" in
  py_item jwt "token".

Definition bearer_client (E : env) (token : json) : gql_client :=
  Client api_graphql [("Authorization", "Bearer " ++ py_str E token);
                      ("JWT-AUD", "sorare-bot"); content_type].

Definition with_client (s : state) (c : gql_client) : state :=
  {| self := {| email := email (self s); password := password (self s);
                webhook := webhook (self s); client := Some c |};
     trace := trace s; calls := calls s |}.

Definition auth_error (E : env) (errors : json) : exn :=
  Exn "Exception" ("Auth failed: " ++ py_str E errors).

(** The fields of a dict without the key [k]. *)
Fixpoint remove_key (k : string) (l : list (string * json))
  : list (string * json) :=
  match l with
  | [] => []
  | (k', v) :: l' =>
      if String.eqb k k' then remove_key k l' else (k', v) :: remove_key k l'
  end.

(** The world [E] with the salt endpoint answering [reply] at every call. *)
Definition with_salt_reply (E : env) (reply : outcome http_response) : env :=
  {| requests_get := fun _ _ _ => reply;
     requests_post := requests_post E;
     gql_execute := gql_execute E;
     bcrypt_hashpw := bcrypt_hashpw E;
     py_repr := py_repr E |}.

Definition with_body (r : http_response) (body : json) : http_response :=
  {| status_code := status_code r; reason := reason r; url := url r;
     json_body := Ret body |}.

(** The state of a fresh bot, and the states [run] leaves it in: after any
    number of iterations of the cycle loop, or stopped. *)
Definition boot (e p w : option string) : state :=
  {| self := __init__ e p w; trace := []; calls := [] |}.

Definition reachable (E : env) (e p w : option string) (s : state) : Prop :=
  s = boot e p w \/ exists fuel, s = snd (run E fuel (boot e p w)).


(** [s] with the call markers [cs] logged. *)
Definition noted (s : state) (cs : list call_event) : state :=
  {| self := self s; trace := trace s; calls := calls s ++ cs |}.

(** [m] leaves the bot object as it found it. *)
Definition keeps_self {A} (m : M A) : Prop :=
  forall s, self (snd (m s)) = self s.

(** [m] logs no call marker. *)
Definition keeps_calls {A} (m : M A) : Prop :=
  forall s, calls (snd (m s)) = calls s.

(** [m] only appends to the trace, and only events that satisfy [P]. *)
Definition appends {A} (P : event -> Prop) (m : M A) : Prop :=
  forall s, exists evs,
    trace (snd (m s)) = (trace s ++ evs)%list /\ Forall P evs.

(** [m] does not depend on the call markers. *)
Definition oblivious {A} (m : M A) : Prop :=
  forall s cs, m (noted s cs) = (fst (m s), noted (snd (m s)) cs).

(** [m] changes the bot object only when it returns normally, and then
    leaves it with a client. *)
Definition opens_session {A} (m : M A) : Prop :=
  forall s, match fst (m s) with
            | Ret _ => client (self (snd (m s))) <> None
            | Raise _ => self (snd (m s)) = self s
            end.

(** ** Sample worlds *)

Definition sample_repr (v : json) : string := "<" ++ type_name v ++ ">".

(** A world whose endpoints give the same answers at every call. *)
Definition fixed_env (salt_reply post_reply : outcome http_response)
           (sign_in_reply cards_reply : outcome json) : env :=
  {| requests_get := fun _ _ _ => salt_reply;
     requests_post := fun _ _ _ _ => post_reply;
     gql_execute := fun _ _ q => match q with
                                 | SignIn _ _ _ => sign_in_reply
                                 | ListedCards _ _ => cards_reply
                                 end;
     bcrypt_hashpw := fun _ sa => Ret (sa ++ "hash");
     py_repr := sample_repr |}.

Definition ok_response (st : Z) (body : json) : http_response :=
  {| status_code := st; reason := "";
     url := "https://api.sorare.com/api/v1/users/bot@example.org";
     json_body := Ret body |}.

Definition connection_error : exn := Exn "ConnectionError" "connection refused".

Definition salt_ok : outcome http_response :=
  Ret (ok_response 200 (JObj [("salt", JStr "$2a$11$abc123")])).

Definition post_ok : outcome http_response := Ret (ok_response 204 JNull).

Definition token_reply : outcome json :=
  Ret (JObj [("signIn", JObj [("jwtToken", JObj [("token", JStr "tok")]);
                              ("errors", JArr [])])]).

Definition invalid_credentials : json :=
  JArr [JObj [("message", JStr "Invalid credentials")]].

Definition rejected_reply : outcome json :=
  Ret (JObj [("signIn", JObj [("errors", invalid_credentials)])]).

Definition cards_response (nodes : list json) : json :=
  JObj [("football", JObj [("cards", JObj [("nodes", JArr nodes)])])].

Definition offer (amount cur : string) : json :=
  JObj [("node", JObj [("price", JObj [("amount", JStr amount);
                                       ("currency", JStr cur)])])].

Definition card (sl name : string) (offers : list json) : json :=
  JObj [("slug", JStr sl);
        ("player", JObj [("displayName", JStr name)]);
        ("saleOffers", JObj [("edges", JArr offers)])].

(** A node that lost its [slug]. *)
Definition card_without_slug : json :=
  JObj [("player", JObj [("displayName", JStr "L. Messi")]);
        ("saleOffers", JObj [("edges", JArr [])])].

Definition session : gql_client :=
  Client api_graphql [("Authorization", "Bearer tok");
                      ("JWT-AUD", "sorare-bot"); content_type].

Definition fresh : state :=
  boot (Some "bot@example.org") (Some "secret") (Some "https://discord.test/hook").

(** The bot once authenticated, at the start of a cycle. *)
Definition signed_in : state :=
  {| self := {| email := Some "bot@example.org"; password := Some "secret";
                webhook := Some "https://discord.test/hook";
                client := Some session |};
     trace := []; calls := [] |}.

(** The API answers the listings query with [nodes]. *)
Definition env_listing (nodes : list json) : env :=
  fixed_env salt_ok post_ok token_reply (Ret (cards_response nodes)).

(** The GraphQL endpoint is unreachable for the listings query. *)
Definition env_down : env :=
  fixed_env salt_ok post_ok token_reply (Raise connection_error).

(** The webhook answers every POST with a 500. *)
Definition env_webhook_500 : env :=
  fixed_env salt_ok (Ret (ok_response 500 JNull)) token_reply
            (Ret (cards_response [])).


(** The salt endpoint is unreachable. *)
Definition env_no_network : env :=
  fixed_env (Raise connection_error) post_ok token_reply
            (Ret (cards_response [])).

(** The salt endpoint answers with an empty salt. *)
Definition env_empty_salt : env :=
  fixed_env (Ret (ok_response 200 (JObj [("salt", JStr "")])))
            post_ok token_reply (Ret (cards_response [])).

(** The sign-in mutation is rejected. *)
Definition env_rejected : env :=
  fixed_env salt_ok post_ok rejected_reply (Ret (cards_response [])).

Definition messi : json := card "messi-2023-rare-1" "L. Messi" [].

Definition mbappe : json :=
  card "mbappe-2023-rare-7" "K. Mbappe" [offer "1000000" "WEI"].

(** ** The rest of the program *)

(** [SorareBot()] as the script builds it: [__init__] reads its three
    settings with [os.getenv], which gives [None] for an unset variable. *)
Definition SorareBot (getenv : string -> option string) : bot :=
  __init__ (getenv "SORARE_EMAIL") (getenv "SORARE_PASSWORD")
           (getenv "DISCORD_WEBHOOK").

(** The [__main__] block: [bot = SorareBot(); bot.run()]. *)
Definition main (E : env) (getenv : string -> option string) (fuel : nat)
  : outcome run_status * state :=
  run E fuel {| self := SorareBot getenv; trace := []; calls := [] |}.

Definition is_get (ev : event) : bool :=
  match ev with EvGet _ _ => true | _ => false end.

(** What the [for card in listings] loop of [run] appends to the trace
    [tr]: per listing, the printed message and its alert. *)
Fixpoint notify_events (E : env) (tr : list event) (w : option string)
         (ls : list listing) : list event :=
  match ls with
  | [] => []
  | c :: ls' =>
      let msg := card_message E c in
      let evs := EvPrint msg ::
                 alert_events E (tr ++ [EvPrint msg]) w msg in
      evs ++ notify_events E (tr ++ evs) w ls'
  end.

(** [edge["node"]["price"][field]] of one sale offer. *)
Definition offer_price (edge : json) (field : string) : outcome json :=
  let? node := py_item edge "node" in
  let? pr := py_item node "price" in
  py_item pr field.

(** The alert of a listing, as [_send_alert] posts it. *)
Definition card_post (E : env) (w : option string) (c : listing) : event :=
  EvPost w (alert_body (card_message E c)) 5.

Definition started_message : string := "🟢 Sorare Bot Started Successfully".

(** The settings of a deployment that forgot [SORARE_PASSWORD]. *)
Definition getenv_no_password (name : string) : option string :=
  if String.eqb name "SORARE_EMAIL" then Some "bot@example.org"
  else if String.eqb name "DISCORD_WEBHOOK" then Some "https://discord.test/hook"
  else None.

(** A fresh bot whose password is unset. *)
Definition fresh_no_password : state :=
  boot (Some "bot@example.org") None (Some "https://discord.test/hook").

(** A card with two offers, and a card node that has no [saleOffers]. *)
Definition two_offers : json :=
  card "haaland-2023-rare-3" "E. Haaland"
       [offer "1000000" "WEI"; offer "5" "ETH"].

Definition card_without_offers : list (string * json) :=
  [("slug", JStr "kane-2023-rare-9");
   ("player", JObj [("displayName", JStr "H. Kane")])].

(** ** Properties *)

#[local] Arguments String.append : simpl never.
#[local] Arguments _send_alert : simpl never.
#[local] Arguments _get_salt : simpl never.
#[local] Arguments _authenticate : simpl never.
#[local] Arguments _fetch_listings : simpl never.
#[local] Arguments parse_listings : simpl never.
#[local] Arguments alert_events : simpl never.
#[local] Arguments py_str : simpl never.
#[local] Arguments after : simpl never.
#[local] Arguments noted : simpl never.

(** Flattens nested [after] and the projections of the state. *)
Ltac flat :=
  unfold after, noted; cbn [self trace calls fst snd];
  rewrite <- ?app_assoc; cbn [app].

Section Properties.

Variable E : env.

Lemma after_nil (s : state) : after s [] = s.
Proof. destruct s. unfold after. cbn. rewrite app_nil_r. reflexivity. Qed.

Lemma after_after (s : state) (a b : list event) :
  after (after s a) b = after s (a ++ b).
Proof. unfold after. cbn. rewrite app_assoc. reflexivity. Qed.

Lemma send_alert_eq (message : string) (s : state) :
  _send_alert E message s =
  (Ret tt, after s (alert_events E (trace s) (webhook (self s)) message)).
Proof.
  unfold _send_alert, try_except, bind, get_self, post, print, emit,
    alert_events, alert_body.
  cbn.
  destruct (requests_post E (trace s) (webhook (self s)) _ 5) as [r|e]; cbn.
  - reflexivity.
  - rewrite after_after. reflexivity.
Qed.

Lemma count_app (p : event -> bool) (a b : list event) :
  count p (a ++ b) = (count p a + count p b)%nat.
Proof. unfold count. rewrite filter_app, length_app. reflexivity. Qed.

Lemma alert_events_posts (tr : list event) (w : option string)
      (message : string) :
  count is_post (alert_events E tr w message) = 1%nat.
Proof.
  unfold alert_events.
  destruct (requests_post E tr w (alert_body message) 5); reflexivity.
Qed.

(** C2 (amended): [_send_alert] returns normally in every world and never
    touches the bot object; it issues exactly one POST, to the webhook,
    with body [{"content": message}] and timeout 5; an exception of the
    POST is caught and printed; a response, whatever its status, is
    dropped without a log line. *)
Theorem send_alert_best_effort (message : string) (s : state) :
  exists log,
    _send_alert E message s =
    (Ret tt,
     after s (EvPost (webhook (self s))
                     (JObj [("content", JStr message)]) 5 :: log))
    /\ count is_post
             (EvPost (webhook (self s))
                     (JObj [("content", JStr message)]) 5 :: log) = 1%nat
    /\ (forall e,
           requests_post E (trace s) (webhook (self s))
                         (JObj [("content", JStr message)]) 5 = Raise e ->
           log = [EvPrint ("⚠️ Failed to send Discord alert: "
                           ++ exn_str e)])
    /\ (forall r,
           requests_post E (trace s) (webhook (self s))
                         (JObj [("content", JStr message)]) 5 = Ret r ->
           log = []).
Proof.
  pose proof (alert_events_posts (trace s) (webhook (self s)) message) as Hc.
  rewrite send_alert_eq. unfold alert_events, alert_body in *.
  destruct (requests_post E (trace s) (webhook (self s)) _ 5) as [r|e] eqn:Hp;
    eexists; (split; [reflexivity|]); (split; [exact Hc|]);
    split; intros; congruence.
Qed.

Lemma since_app (old evs : list event) : since old (old ++ evs) = evs.
Proof.
  unfold since. induction old as [|x old IH]; cbn; [reflexivity | exact IH].
Qed.

Lemma contains_suffix (pre sub : string) : contains sub (pre ++ sub).
Proof.
  exists pre, "". f_equal.
  induction sub as [|c sub IH]; [reflexivity|].
  change (String c sub = String c (sub ++ "")). now rewrite <- IH.
Qed.

(** [_fetch_listings], statement by statement: the request, then either
    the handler of the [try] or the unprotected reading of the result. *)
Lemma fetch_listings_eq (s : state) :
  _fetch_listings E s =
  match fetch_request E s with
  | Ret result =>
      (parse_listings result,
       after s (fetch_request_events s
                ++ [EvPrint ("API Response: " ++ py_str E result)]))
  | Raise e =>
      let msg := "⚠️ API request failed: " ++ exn_str e in
      let s1 := after s (fetch_request_events s ++ [EvPrint msg]) in
      (Ret [], after s1 (alert_events E (trace s1) (webhook (self s)) msg))
  end.
Proof.
  unfold _fetch_listings, fetch_request, fetch_request_events, bind at 1.
  unfold try_except, bind, get_self, execute, print, emit, raise, ret, lift.
  cbn.
  destruct (client (self s)) as [cl|]; cbn.
  - destruct (gql_execute E (trace s) cl listings_query) as [result|e]; cbn.
    + now flat.
    + rewrite send_alert_eq. now flat.
  - rewrite send_alert_eq. now flat.
Qed.

(** *** How the combinators treat the bot object, the logs and the markers *)

Section Combinators.

Context {A B : Type}.
Variable P : event -> Prop.

Lemma keeps_self_bind (m : M A) (k : A -> M B) :
  keeps_self m -> (forall a, keeps_self (k a)) -> keeps_self (bind m k).
Proof.
  intros Hm Hk s. unfold bind. specialize (Hm s).
  destruct (m s) as [[a|e] s']; cbn in *; [|assumption].
  rewrite Hk. assumption.
Qed.

Lemma keeps_self_try (m : M A) (h : exn -> M A) :
  keeps_self m -> (forall e, keeps_self (h e)) ->
  keeps_self (try_except m h).
Proof.
  intros Hm Hh s. unfold try_except. specialize (Hm s).
  destruct (m s) as [[a|e] s']; cbn in *; [assumption|].
  rewrite Hh. assumption.
Qed.

Lemma keeps_calls_bind (m : M A) (k : A -> M B) :
  keeps_calls m -> (forall a, keeps_calls (k a)) -> keeps_calls (bind m k).
Proof.
  intros Hm Hk s. unfold bind. specialize (Hm s).
  destruct (m s) as [[a|e] s']; cbn in *; [|assumption].
  rewrite Hk. assumption.
Qed.

Lemma keeps_calls_try (m : M A) (h : exn -> M A) :
  keeps_calls m -> (forall e, keeps_calls (h e)) ->
  keeps_calls (try_except m h).
Proof.
  intros Hm Hh s. unfold try_except. specialize (Hm s).
  destruct (m s) as [[a|e] s']; cbn in *; [assumption|].
  rewrite Hh. assumption.
Qed.

Lemma appends_bind (m : M A) (k : A -> M B) :
  appends P m -> (forall a, appends P (k a)) -> appends P (bind m k).
Proof.
  intros Hm Hk s. unfold bind.
  destruct (Hm s) as [evs [Ht Hp]].
  destruct (m s) as [[a|e] s']; cbn in *.
  - destruct (Hk a s') as [evs' [Ht' Hp']].
    exists (evs ++ evs')%list. split.
    + rewrite Ht', Ht, app_assoc. reflexivity.
    + apply Forall_app. split; assumption.
  - exists evs. split; assumption.
Qed.

Lemma appends_try (m : M A) (h : exn -> M A) :
  appends P m -> (forall e, appends P (h e)) -> appends P (try_except m h).
Proof.
  intros Hm Hh s. unfold try_except.
  destruct (Hm s) as [evs [Ht Hp]].
  destruct (m s) as [[a|e] s']; cbn in *.
  - exists evs. split; assumption.
  - destruct (Hh e s') as [evs' [Ht' Hp']].
    exists (evs ++ evs')%list. split.
    + rewrite Ht', Ht, app_assoc. reflexivity.
    + apply Forall_app. split; assumption.
Qed.

Lemma oblivious_bind (m : M A) (k : A -> M B) :
  oblivious m -> (forall a, oblivious (k a)) -> oblivious (bind m k).
Proof.
  intros Hm Hk s cs. unfold bind. rewrite Hm.
  destruct (m s) as [[a|e] s']; cbn; [apply Hk | reflexivity].
Qed.

Lemma oblivious_try (m : M A) (h : exn -> M A) :
  oblivious m -> (forall e, oblivious (h e)) -> oblivious (try_except m h).
Proof.
  intros Hm Hh s cs. unfold try_except. rewrite Hm.
  destruct (m s) as [[a|e] s']; cbn; [reflexivity | apply Hh].
Qed.

Lemma opens_session_bind (m : M A) (k : A -> M B) :
  keeps_self m -> (forall a, opens_session (k a)) ->
  opens_session (bind m k).
Proof.
  intros Hm Hk s. unfold bind. specialize (Hm s).
  destruct (m s) as [[a|e] s']; cbn in *; [|assumption].
  specialize (Hk a s'). destruct (k a s') as [[b|e] s'']; cbn in *;
    congruence.
Qed.

(** A step that appends fixed events and touches nothing else. *)
Variable m : M A.
Variable evs : state -> list event.
Hypothesis m_after : forall s, snd (m s) = after s (evs s).

Lemma io_keeps_self : keeps_self m.
Proof. intro s. rewrite m_after. reflexivity. Qed.

Lemma io_keeps_calls : keeps_calls m.
Proof. intro s. rewrite m_after. reflexivity. Qed.

Lemma io_appends : (forall s, Forall P (evs s)) -> appends P m.
Proof. intros H s. exists (evs s). rewrite m_after. split; [reflexivity | apply H]. Qed.

End Combinators.

(** A leaf of a method: a primitive of the monad. *)
Ltac solve_primitive :=
  lazymatch goal with
  | |- keeps_self _ => intro; reflexivity
  | |- keeps_calls _ => intro; reflexivity
  | |- oblivious _ => intros ? ?; reflexivity
  | |- opens_session _ => intro; cbn; congruence
  | |- appends _ _ =>
      intro;
      first [ exists []; split; [symmetry; apply app_nil_r | constructor]
            | eexists; split; [reflexivity | repeat constructor; auto] ]
  end.

(** Leaves that are calls of methods already dealt with. *)
Ltac solve_known := fail.

(** Walks down the binds, handlers and branches of a method. *)
Ltac solve_method :=
  repeat
    (intros;
     lazymatch goal with
     | |- keeps_self (bind _ _) => apply keeps_self_bind
     | |- keeps_self (try_except _ _) => apply keeps_self_try
     | |- keeps_calls (bind _ _) => apply keeps_calls_bind
     | |- keeps_calls (try_except _ _) => apply keeps_calls_try
     | |- appends _ (bind _ _) => apply appends_bind
     | |- appends _ (try_except _ _) => apply appends_try
     | |- oblivious (bind _ _) => apply oblivious_bind
     | |- oblivious (try_except _ _) => apply oblivious_try
     | |- opens_session (bind _ _) => apply opens_session_bind
     | |- _ (if ?b then _ else _) => destruct b
     | |- _ (execute _ ?c _) =>
         lazymatch c with
         | Some _ => solve_primitive
         | None => solve_primitive
         | _ => destruct c
         end
     | |- _ (match ?x with _ => _ end) => destruct x
     | |- _ => first [solve_known | solve_primitive]
     end).

Lemma for_each_keeps_self {A} (body : A -> M unit) (l : list A) :
  (forall a, keeps_self (body a)) -> keeps_self (for_each l body).
Proof.
  intro H. induction l as [|a l IH]; cbn [for_each].
  - intro s. reflexivity.
  - apply keeps_self_bind; [apply H | intros _; exact IH].
Qed.

Lemma for_each_keeps_calls {A} (body : A -> M unit) (l : list A) :
  (forall a, keeps_calls (body a)) -> keeps_calls (for_each l body).
Proof.
  intro H. induction l as [|a l IH]; cbn [for_each].
  - intro s. reflexivity.
  - apply keeps_calls_bind; [apply H | intros _; exact IH].
Qed.

Lemma for_each_appends {A} (P : event -> Prop) (body : A -> M unit)
      (l : list A) :
  (forall a, appends P (body a)) -> appends P (for_each l body).
Proof.
  intro H. induction l as [|a l IH]; cbn [for_each].
  - intro s. exists []. split; [symmetry; apply app_nil_r | constructor].
  - apply appends_bind; [apply H | intros _; exact IH].
Qed.

(** *** The methods, one property at a time *)

Section Methods.

Variable P : event -> Prop.
Hypothesis P_get : forall u h, P (EvGet u h).
Hypothesis P_execute : forall c q, P (EvExecute c q).
Hypothesis P_post : forall u b t, P (EvPost u b t).
Hypothesis P_print : forall l, P (EvPrint l).
Hypothesis P_sleep : P (EvSleep 300) /\ P (EvSleep 60).

Lemma send_alert_keeps_self message : keeps_self (_send_alert E message).
Proof. unfold _send_alert. solve_method. Qed.

Lemma send_alert_keeps_calls message : keeps_calls (_send_alert E message).
Proof. unfold _send_alert. solve_method. Qed.

Lemma send_alert_appends message : appends P (_send_alert E message).
Proof. unfold _send_alert. solve_method. Qed.

Lemma send_alert_oblivious message : oblivious (_send_alert E message).
Proof. unfold _send_alert. solve_method. Qed.

Lemma get_salt_keeps_self : keeps_self (_get_salt E).
Proof. unfold _get_salt. solve_method. Qed.

Lemma get_salt_keeps_calls : keeps_calls (_get_salt E).
Proof. unfold _get_salt. solve_method. Qed.

Lemma get_salt_appends : appends P (_get_salt E).
Proof. unfold _get_salt. solve_method. Qed.

Lemma get_salt_oblivious : oblivious (_get_salt E).
Proof. unfold _get_salt. solve_method. Qed.

Lemma authenticate_keeps_calls : keeps_calls (_authenticate E).
Proof.
  unfold _authenticate.
  apply keeps_calls_bind; [apply get_salt_keeps_calls | intro].
  solve_method.
Qed.

Lemma authenticate_appends : appends P (_authenticate E).
Proof.
  unfold _authenticate.
  apply appends_bind; [apply get_salt_appends | intro].
  solve_method.
Qed.

Lemma authenticate_oblivious : oblivious (_authenticate E).
Proof.
  unfold _authenticate.
  apply oblivious_bind; [apply get_salt_oblivious | intro].
  solve_method.
Qed.

Lemma authenticate_opens_session : opens_session (_authenticate E).
Proof.
  unfold _authenticate.
  apply opens_session_bind; [apply get_salt_keeps_self | intro].
  solve_method.
Qed.

Ltac solve_known ::=
  first [ apply send_alert_keeps_self | apply send_alert_keeps_calls
        | apply send_alert_appends | apply send_alert_oblivious ].

Lemma fetch_listings_keeps_self : keeps_self (_fetch_listings E).
Proof. unfold _fetch_listings. solve_method. Qed.

Lemma fetch_listings_keeps_calls : keeps_calls (_fetch_listings E).
Proof. unfold _fetch_listings. solve_method. Qed.

Lemma fetch_listings_appends : appends P (_fetch_listings E).
Proof. unfold _fetch_listings. solve_method. Qed.

Lemma fetch_listings_oblivious : oblivious (_fetch_listings E).
Proof. unfold _fetch_listings. solve_method. Qed.

Lemma notify_keeps_self (ls : list listing) :
  keeps_self
    (for_each ls (fun c => print (card_message E c) ;;
                           _send_alert E (card_message E c))).
Proof. apply for_each_keeps_self. solve_method. Qed.

Lemma notify_keeps_calls (ls : list listing) :
  keeps_calls
    (for_each ls (fun c => print (card_message E c) ;;
                           _send_alert E (card_message E c))).
Proof. apply for_each_keeps_calls. solve_method. Qed.

Lemma notify_appends (ls : list listing) :
  appends P
    (for_each ls (fun c => print (card_message E c) ;;
                           _send_alert E (card_message E c))).
Proof. apply for_each_appends. solve_method. Qed.

Ltac solve_known ::=
  first [ apply send_alert_keeps_self | apply send_alert_keeps_calls
        | apply send_alert_appends | apply send_alert_oblivious
        | apply fetch_listings_keeps_self | apply fetch_listings_appends
        | apply notify_keeps_self | apply notify_appends ].

Lemma cycle_keeps_self : keeps_self (cycle E).
Proof.
  unfold cycle, cycle_body, cycle_handler, call. solve_method.
Qed.

Lemma cycle_appends : appends P (cycle E).
Proof.
  destruct P_sleep.
  unfold cycle, cycle_body, cycle_handler, call. solve_method.
Qed.

Lemma loop_keeps_self (fuel : nat) : keeps_self (loop E fuel).
Proof.
  induction fuel as [|fuel IH]; cbn [loop].
  - intro s. reflexivity.
  - apply keeps_self_bind; [apply cycle_keeps_self | intros _; exact IH].
Qed.

Lemma loop_appends (fuel : nat) : appends P (loop E fuel).
Proof.
  induction fuel as [|fuel IH]; cbn [loop].
  - intro s. exists []. split; [symmetry; apply app_nil_r | constructor].
  - apply appends_bind; [apply cycle_appends | intros _; exact IH].
Qed.

End Methods.

(** *** Calls, cycles and the loop *)

Lemma call_eq {A} (m : method) (body : M A) (s : state) :
  oblivious body ->
  call m body s =
  match body s with
  | (Ret a, s') =>
      (Ret a, noted s' [Called m (client (self s)); Returned m])
  | (Raise e, s') => (Raise e, noted s' [Called m (client (self s))])
  end.
Proof.
  intro Hb. unfold call, bind, get_self, mark. cbn.
  change {| self := self s; trace := trace s;
            calls := calls s ++ [Called m (client (self s))] |}
    with (noted s [Called m (client (self s))]).
  rewrite Hb. destruct (body s) as [[a|e] s']; cbn; [|reflexivity].
  unfold ret. now flat.
Qed.

Lemma send_alert_returns (message : string) (s : state) :
  fst (_send_alert E message s) = Ret tt.
Proof. rewrite send_alert_eq. reflexivity. Qed.

Lemma cycle_handler_eq (e : exn) (s : state) :
  cycle_handler E e s =
  let msg := "⚠️ Unexpected error: " ++ exn_str e in
  (Ret tt,
   after s (EvPrint msg ::
            alert_events E (trace s ++ [EvPrint msg]) (webhook (self s)) msg
            ++ [EvSleep 60])).
Proof.
  unfold cycle_handler, bind, print, sleep, emit. cbn.
  rewrite send_alert_eq. now flat.
Qed.

Lemma cycle_returns (s : state) : fst (cycle E s) = Ret tt.
Proof.
  unfold cycle, try_except.
  destruct (cycle_body E s) as [[[]|e] s1]; [reflexivity|].
  rewrite cycle_handler_eq. reflexivity.
Qed.

Lemma loop_returns (fuel : nat) (s : state) :
  fst (loop E fuel s) = Ret StillLooping.
Proof.
  revert s. induction fuel as [|fuel IH]; intro s; cbn [loop].
  - reflexivity.
  - unfold bind. pose proof (cycle_returns s) as Hc.
    destruct (cycle E s) as [[[]|e] s1]; cbn in Hc; [apply IH | discriminate].
Qed.

Lemma alert_events_sleeps (tr : list event) (w : option string)
      (message : string) :
  filter is_sleep (alert_events E tr w message) = [].
Proof.
  unfold alert_events.
  destruct (requests_post E tr w (alert_body message) 5); reflexivity.
Qed.

(** The durations the bot ever sleeps. *)
Lemma loop_sleeps (fuel : nat) (s : state) (d : Z) :
  In (EvSleep d) (since (trace s) (trace (snd (loop E fuel s)))) ->
  d = 300 \/ d = 60.
Proof.
  destruct (loop_appends (fun ev => forall x, ev = EvSleep x ->
                                              x = 300 \/ x = 60)) with
    (fuel := fuel) (s := s) as [evs [Ht Hp]];
    try (intros; discriminate).
  - split; intros x Hx; injection Hx as <-; auto.
  - rewrite Ht, since_app. intro Hin.
    rewrite Forall_forall in Hp. exact (Hp _ Hin d eq_refl).
Qed.

(** *** The fetcher and the cycle around it *)

(** When the request returns, what [_fetch_listings] does next is outside
    its [try]: the outcome of reading the result is the outcome of the
    method, exception included, and no alert is sent. *)
Lemma fetch_listings_reads_unprotected (s : state) (result : json) :
  fetch_request E s = Ret result ->
  _fetch_listings E s =
  (parse_listings result,
   after s (fetch_request_events s
            ++ [EvPrint ("API Response: " ++ py_str E result)])).
Proof. intro H. rewrite fetch_listings_eq, H. reflexivity. Qed.

(** C1 (amended): whenever the listings request itself raises,
    [_fetch_listings] catches the exception, prints it, sends exactly one
    alert whose text contains the error text, and returns the empty list;
    the cycle then goes on to its normal 300-second sleep. *)
Theorem fetch_request_failure_absorbed (s : state) (e : exn) :
  fetch_request E s = Raise e ->
  let msg := "⚠️ API request failed: " ++ exn_str e in
  let s1 := after s (fetch_request_events s ++ [EvPrint msg]) in
  let s2 := after s1 (alert_events E (trace s1) (webhook (self s)) msg) in
  _fetch_listings E s = (Ret [], s2)
  /\ contains (exn_str e) msg
  /\ count is_post (since (trace s) (trace s2)) = 1%nat
  /\ cycle E s =
     (Ret tt,
      after (noted s2 [Called FetchListings (client (self s));
                       Returned FetchListings])
            [EvSleep 300]).
Proof.
  intros H msg s1 s2.
  assert (Hf : _fetch_listings E s = (Ret [], s2)).
  { rewrite fetch_listings_eq, H. reflexivity. }
  split; [exact Hf|]. split; [apply contains_suffix|]. split.
  - subst s2 s1. unfold after. cbn [trace self].
    rewrite <- app_assoc, since_app, !count_app, alert_events_posts.
    unfold fetch_request_events. destruct (client (self s)); reflexivity.
  - unfold cycle, try_except, cycle_body, bind.
    rewrite call_eq by apply fetch_listings_oblivious.
    rewrite Hf. reflexivity.
Qed.

(** C6: an exception that escapes the body of a cycle is caught by the
    cycle's handler, which prints it, sends exactly one alert whose text
    contains the exception text, sleeps 60 seconds and hands control back
    to the loop.  The loop never stops and never raises whatever the fuel,
    and 300 and 60 are the only durations it ever sleeps. *)
Theorem cycle_error_backoff (s s1 : state) (e : exn) :
  cycle_body E s = (Raise e, s1) ->
  let msg := "⚠️ Unexpected error: " ++ exn_str e in
  let handled :=
    EvPrint msg ::
    alert_events E (trace s1 ++ [EvPrint msg]) (webhook (self s1)) msg
    ++ [EvSleep 60] in
  cycle E s = (Ret tt, after s1 handled)
  /\ contains (exn_str e) msg
  /\ count is_post handled = 1%nat
  /\ filter is_sleep handled = [EvSleep 60]
  /\ (forall fuel, loop E (S fuel) s = loop E fuel (after s1 handled))
  /\ (forall fuel s0, fst (loop E fuel s0) = Ret StillLooping)
  /\ (forall fuel s0 d,
         In (EvSleep d) (since (trace s0) (trace (snd (loop E fuel s0)))) ->
         d = 300 \/ d = 60).
Proof.
  intros H msg handled.
  assert (Hc : cycle E s = (Ret tt, after s1 handled)).
  { unfold cycle, try_except. rewrite H, cycle_handler_eq. reflexivity. }
  split; [exact Hc|]. split; [apply contains_suffix|].
  split; [|split; [|split; [|split]]].
  - subst handled.
    change (count is_post (alert_events E (trace s1 ++ [EvPrint msg])
                                        (webhook (self s1)) msg
                           ++ [EvSleep 60]) = 1%nat).
    rewrite count_app, alert_events_posts. reflexivity.
  - subst handled. cbn [filter is_sleep].
    rewrite filter_app, alert_events_sleeps. reflexivity.
  - intro fuel. cbn [loop]. unfold bind. rewrite Hc. reflexivity.
  - apply loop_returns.
  - apply loop_sleeps.
Qed.

(** *** Authentication *)

Lemma get_salt_eq (s : state) :
  _get_salt E s =
  match salt_reply E s with
  | Ret v => (Ret v, after s [salt_get s])
  | Raise e =>
      (Ret JNull,
       after s [salt_get s;
                EvPrint ("⚠️ Error getting salt: " ++ exn_str e)])
  end.
Proof.
  unfold _get_salt, salt_reply, salt_get, salt_url, try_except, bind,
    get_self, get, lift, print, emit, ret.
  cbn.
  destruct (requests_get E (trace s) _ [content_type]) as [r|e]; cbn;
    [|now flat].
  destruct (raise_for_status r) as [[]|e]; cbn; [|now flat].
  destruct (json_body r) as [body|e]; cbn; [|now flat].
  destruct (py_get body "salt" JNull) as [v|e]; cbn; now flat.
Qed.

(** [_authenticate], statement by statement. *)
Lemma authenticate_eq (s : state) :
  _authenticate E s =
  match _get_salt E s with
  | (Raise e, s1) => (Raise e, s1)
  | (Ret salt, s1) =>
      if negb (truthy salt) then (Raise salt_error, s1)
      else
        match hashed_password E (self s1) salt with
        | Raise e => (Raise e, s1)
        | Ret hashed_pw =>
            let q := sign_in_request (self s1) hashed_pw in
            let s2 := after s1 [EvExecute temp_client q] in
            match gql_execute E (trace s1) temp_client q with
            | Raise e => (Raise e, s2)
            | Ret result =>
                match sign_in_errors result with
                | Raise e => (Raise e, s2)
                | Ret errors =>
                    if truthy errors then (Raise (auth_error E errors), s2)
                    else
                      match issued_token result with
                      | Raise e => (Raise e, s2)
                      | Ret token =>
                          (Ret tt, with_client s2 (bearer_client E token))
                      end
                end
            end
        end
  end.
Proof.
  unfold _authenticate. unfold bind at 1.
  destruct (_get_salt E s) as [[salt|e] s1]; [|reflexivity].
  destruct (negb (truthy salt)); [reflexivity|].
  unfold hashed_password, sign_in_errors, issued_token, sign_in_request,
    bind, get_self, lift, execute, raise, set_client.
  cbn.
  destruct (encode (opt_json (password (self s1)))) as [pw|e]; cbn;
    [|reflexivity].
  destruct (encode salt) as [sb|e]; cbn; [|reflexivity].
  destruct (bcrypt_hashpw E pw sb) as [h|e]; cbn; [|reflexivity].
  destruct (gql_execute E (trace s1) _ _) as [result|e]; cbn; [|reflexivity].
  destruct (py_get result "signIn" (JObj [])) as [si|e]; cbn; [|reflexivity].
  destruct (py_get si "errors" JNull) as [errors|e]; cbn; [|reflexivity].
  destruct (truthy errors); [reflexivity|].
  destruct (py_item result "signIn") as [si'|e]; cbn; [|reflexivity].
  destruct (py_item si' "jwtToken") as [jwt|e]; cbn; [|reflexivity].
  destruct (py_item jwt "token") as [token|e]; cbn; reflexivity.
Qed.

(** Without a truthy salt, [_authenticate] stops at its first test. *)
Lemma authenticate_without_salt (s : state) :
  match salt_reply E s with
  | Ret v => truthy v = false
  | Raise _ => True
  end ->
  exists log,
    _authenticate E s = (Raise salt_error, after s (salt_get s :: log))
    /\ (log = [] \/ exists line, log = [EvPrint line]).
Proof.
  intro H. rewrite authenticate_eq, get_salt_eq.
  destruct (salt_reply E s) as [v|e].
  - rewrite H. cbn. exists []. split; [reflexivity | left; reflexivity].
  - cbn. eexists. split; [reflexivity | right; eexists; reflexivity].
Qed.



Lemma assoc_remove_key (k : string) (l : list (string * json)) :
  assoc k (remove_key k l) = None.
Proof.
  induction l as [|[k' v] l IH]; cbn; [reflexivity|].
  destruct (String.eqb k k') eqn:Hk; [exact IH|].
  cbn. rewrite Hk. exact IH.
Qed.

(** C10: a [salt] field that is present but falsy (the empty string,
    JSON null, or any other falsy value) is treated exactly as a missing
    one: [_authenticate] raises the salt-retrieval failure after the GET
    alone, without issuing the sign-in mutation, and its whole outcome is
    the one it has in the world where the same response carries no [salt]
    field at all. *)
Theorem falsy_salt_is_missing_salt (s : state) (r : http_response)
        (fields : list (string * json)) (v : json) :
  requests_get E (trace s) (salt_url (self s)) [content_type] = Ret r ->
  raise_for_status r = Ret tt ->
  json_body r = Ret (JObj fields) ->
  assoc "salt" fields = Some v ->
  truthy v = false ->
  _authenticate E s = (Raise salt_error, after s [salt_get s])
  /\ filter is_execute (since (trace s) (trace (after s [salt_get s]))) = []
  /\ _authenticate
       (with_salt_reply E
          (Ret (with_body r (JObj (remove_key "salt" fields))))) s
     = _authenticate E s.
Proof.
  intros Hg Hs Hb Hf Hv.
  assert (H1 : _authenticate E s = (Raise salt_error, after s [salt_get s])).
  { rewrite authenticate_eq, get_salt_eq. unfold salt_reply.
    rewrite Hg. cbn. rewrite Hs. cbn. rewrite Hb. cbn. rewrite Hf, Hv.
    reflexivity. }
  split; [exact H1|]. split.
  - flat. rewrite since_app. reflexivity.
  - rewrite H1.
    unfold _authenticate, bind at 1, _get_salt.
    unfold try_except, bind, get_self, get, lift, print, emit, ret.
    cbn. unfold raise_for_status in *. cbn.
    destruct ((400 <=? status_code r) && (status_code r <? 500));
      [discriminate|].
    destruct ((500 <=? status_code r) && (status_code r <? 600));
      [discriminate|].
    cbn. rewrite assoc_remove_key. cbn. reflexivity.
Qed.

(** C5: when the reply to the sign-in mutation carries a non-empty
    [errors] list, [_authenticate] raises [Exception("Auth failed: ...")]
    whose text contains those errors as the interpreter prints them, and
    the bot object is left as it was: no client is constructed, so a
    client that was [None] is still [None]. *)
Theorem sign_in_errors_abort (s s1 : state) (salt : json)
        (hashed_pw : string) (result err : json) (errs : list json) :
  _get_salt E s = (Ret salt, s1) ->
  truthy salt = true ->
  hashed_password E (self s) salt = Ret hashed_pw ->
  gql_execute E (trace s1) temp_client (sign_in_request (self s) hashed_pw)
  = Ret result ->
  sign_in_errors result = Ret (JArr (err :: errs)) ->
  let s2 := after s1 [EvExecute temp_client
                                (sign_in_request (self s) hashed_pw)] in
  _authenticate E s = (Raise (auth_error E (JArr (err :: errs))), s2)
  /\ contains (py_str E (JArr (err :: errs)))
              (exn_str (auth_error E (JArr (err :: errs))))
  /\ self s2 = self s
  /\ (client (self s) = None -> client (self s2) = None).
Proof.
  intros Hsalt Ht Hh Hx He s2.
  assert (Hself : self s1 = self s).
  { pose proof (get_salt_keeps_self s) as H. rewrite Hsalt in H. exact H. }
  assert (Hs2 : self s2 = self s) by exact Hself.
  split; [|split; [apply contains_suffix | split; [exact Hs2|]]].
  - rewrite authenticate_eq, Hsalt, Ht. cbn [negb].
    rewrite Hself, Hh. cbn zeta. rewrite Hx, He. reflexivity.
  - intro Hc. rewrite Hs2. exact Hc.
Qed.

(** *** Startup *)

Lemma run_eq (fuel : nat) (s : state) :
  run E fuel s =
  match _authenticate E s with
  | (Raise e, s1) =>
      critical_handler E e (noted s1 [Called Authenticate (client (self s))])
  | (Ret _, s1) =>
      let s2 := noted s1 [Called Authenticate (client (self s));
                          Returned Authenticate] in
      let started := "🟢 Sorare Bot Started Successfully" in
      loop E fuel
           (after s2 (alert_events E (trace s2) (webhook (self s2)) started
                      ++ [EvPrint "🟢 Bot is running..."]))
  end.
Proof.
  unfold run, try_except. unfold bind at 1.
  rewrite call_eq by apply authenticate_oblivious.
  destruct (_authenticate E s) as [[[]|e] s1]; [|reflexivity].
  unfold bind at 1. rewrite send_alert_eq.
  unfold bind at 1. unfold print, emit. cbn zeta.
  rewrite after_after.
  pose proof (loop_returns fuel
                (after (noted s1 [Called Authenticate (client (self s));
                                  Returned Authenticate])
                   (alert_events E
                      (trace (noted s1 [Called Authenticate
                                          (client (self s));
                                        Returned Authenticate]))
                      (webhook (self (noted s1
                                        [Called Authenticate
                                           (client (self s));
                                         Returned Authenticate])))
                      "🟢 Sorare Bot Started Successfully"
                    ++ [EvPrint "🟢 Bot is running..."]))) as Hl.
  destruct (loop E fuel _) as [[st|e] s3]; cbn in Hl;
    [reflexivity | discriminate].
Qed.

Lemma critical_handler_eq (e : exn) (s : state) :
  critical_handler E e s =
  let msg := "🔴 Critical failure: " ++ exn_str e in
  (Ret Exited,
   after s (EvPrint msg ::
            alert_events E (trace s ++ [EvPrint msg]) (webhook (self s)) msg)).
Proof.
  unfold critical_handler, bind, print, emit, ret. cbn.
  rewrite send_alert_eq. now flat.
Qed.

Lemma alert_events_executes (tr : list event) (w : option string)
      (message : string) :
  filter is_execute (alert_events E tr w message) = [].
Proof.
  unfold alert_events.
  destruct (requests_post E tr w (alert_body message) 5); reflexivity.
Qed.

(** [_authenticate] posts nothing and never sleeps. *)
Lemma authenticate_quiet (s : state) :
  exists evs,
    trace (snd (_authenticate E s)) = (trace s ++ evs)%list
    /\ count is_post evs = 0%nat /\ filter is_sleep evs = [].
Proof.
  destruct (authenticate_appends
              (fun ev => is_post ev = false /\ is_sleep ev = false))
    with (s := s) as [evs [Ht Hp]]; try (intros; split; reflexivity).
  exists evs. split; [exact Ht|]. unfold count. clear Ht.
  induction Hp as [|ev evs [Hp1 Hs1] _ [IH1 IH2]]; [split; reflexivity|].
  cbn. rewrite Hp1, Hs1. split; assumption.
Qed.

(** C7: if [_authenticate] raises at startup, [run] prints the failure,
    sends exactly one alert - the critical-failure alert, whose text
    contains the exception text - and returns, whatever the fuel: no
    sleep, no second call of [_authenticate], no call of
    [_fetch_listings], and the bot object as [_authenticate] left it. *)
Theorem auth_failure_is_terminal (s s1 : state) (e : exn) :
  _authenticate E s = (Raise e, s1) ->
  let msg := "🔴 Critical failure: " ++ exn_str e in
  let final :=
    after (noted s1 [Called Authenticate (client (self s))])
          (EvPrint msg ::
           alert_events E (trace s1 ++ [EvPrint msg]) (webhook (self s1)) msg)
  in
  (forall fuel, run E fuel s = (Ret Exited, final))
  /\ contains (exn_str e) msg
  /\ count is_post (since (trace s) (trace final)) = 1%nat
  /\ filter is_sleep (since (trace s) (trace final)) = []
  /\ calls final = (calls s ++ [Called Authenticate (client (self s))])%list
  /\ self final = self s.
Proof.
  intros H msg final.
  split; [|split; [apply contains_suffix|]].
  - intro fuel. rewrite run_eq, H, critical_handler_eq. reflexivity.
  - destruct (authenticate_quiet s) as [evs [Ht [Hp Hs]]].
    pose proof (authenticate_keeps_calls s) as Hc.
    pose proof (authenticate_opens_session s) as Ho.
    rewrite H in Ht, Hc, Ho. cbn [fst snd] in Ht, Hc, Ho.
    subst final. flat. rewrite Ht, <- app_assoc, since_app.
    split; [|split; [|split]].
    + match goal with
      | |- context [EvPrint msg :: ?l] =>
          change (EvPrint msg :: l) with ([EvPrint msg] ++ l)%list
      end.
      rewrite !count_app, alert_events_posts, Hp. reflexivity.
    + rewrite filter_app, Hs. cbn [filter is_sleep app].
      apply alert_events_sleeps.
    + rewrite Hc. reflexivity.
    + exact Ho.
Qed.

(** *** The session invariant *)

(** The markers one cycle logs: a call of [_fetch_listings] with the
    client of the bot, and its return when it returns. *)
Lemma cycle_calls (s : state) :
  exists cs,
    calls (snd (cycle E s)) = (calls s ++ cs)%list
    /\ Forall (fun c => c = Called FetchListings (client (self s))
                        \/ c = Returned FetchListings) cs.
Proof.
  unfold cycle, try_except, cycle_body. unfold bind at 1.
  rewrite call_eq by apply fetch_listings_oblivious.
  pose proof (fetch_listings_keeps_calls s) as Hc.
  destruct (_fetch_listings E s) as [[ls|e] s1]; cbn [snd] in Hc.
  - exists [Called FetchListings (client (self s)); Returned FetchListings].
    split;
      [|repeat (apply Forall_cons;
                [first [left; reflexivity | right; reflexivity]|]);
        apply Forall_nil].
    set (s2 := noted s1 _).
    assert (Hk : keeps_calls
                   (for_each ls
                      (fun card =>
                         print (card_message E card) ;;
                         _send_alert E (card_message E card)) ;;
                    sleep 300)).
    { apply keeps_calls_bind; [apply notify_keeps_calls | intros _].
      intro s0. reflexivity. }
    specialize (Hk s2).
    destruct ((for_each ls _ ;; sleep 300) s2) as [[[]|e] s3];
      cbn [snd] in Hk |- *.
    + rewrite Hk. subst s2. flat. rewrite Hc. reflexivity.
    + rewrite cycle_handler_eq. flat. rewrite Hk. subst s2. flat.
      rewrite Hc. reflexivity.
  - exists [Called FetchListings (client (self s))].
    split;
      [|repeat (apply Forall_cons;
                [first [left; reflexivity | right; reflexivity]|]);
        apply Forall_nil].
    rewrite cycle_handler_eq. flat. rewrite Hc. reflexivity.
Qed.

Lemma loop_calls (fuel : nat) (s : state) :
  exists cs,
    calls (snd (loop E fuel s)) = (calls s ++ cs)%list
    /\ Forall (fun c => c = Called FetchListings (client (self s))
                        \/ c = Returned FetchListings) cs.
Proof.
  revert s. induction fuel as [|fuel IH]; intro s; cbn [loop].
  - exists []. split; [symmetry; apply app_nil_r | constructor].
  - unfold bind.
    destruct (cycle_calls s) as [cs [Hc Hf]].
    pose proof (cycle_keeps_self s) as Hs.
    pose proof (cycle_returns s) as Hr.
    destruct (cycle E s) as [[[]|e] s1]; cbn [fst snd] in *;
      [|discriminate].
    destruct (IH s1) as [cs' [Hc' Hf']].
    exists (cs ++ cs')%list. split.
    + rewrite Hc', Hc, app_assoc. reflexivity.
    + apply Forall_app. split; [exact Hf|]. rewrite <- Hs. exact Hf'.
Qed.

(** C8: in the initial state of the bot and in every state [run] leaves
    it in, after any number of cycles, the client is not [None] exactly
    when [_authenticate] has returned normally; and every call of
    [_fetch_listings] found a client and comes after that return. *)
Theorem session_invariant (e p w : option string) (s : state) :
  reachable E e p w s ->
  (client (self s) <> None <-> In (Returned Authenticate) (calls s))
  /\ (forall pre c post,
         calls s = (pre ++ Called FetchListings c :: post)%list ->
         c <> None /\ In (Returned Authenticate) pre).
Proof.
  intros [-> | [fuel ->]].
  - split.
    + split; [intro H; now contradiction H | intros []].
    + intros [|x pre] c post H; discriminate.
  - rewrite run_eq.
    pose proof (authenticate_keeps_calls (boot e p w)) as Hc.
    pose proof (authenticate_opens_session (boot e p w)) as Ho.
    destruct (_authenticate E (boot e p w)) as [[[]|ex] s1];
      cbn [fst snd] in Hc, Ho.
    + cbn zeta.
      set (s2 := after _ _).
      assert (Hs2 : self s2 = self s1) by reflexivity.
      assert (Hc2 : calls s2 = [Called Authenticate None;
                                Returned Authenticate]).
      { subst s2. flat. rewrite Hc. reflexivity. }
      destruct (loop_calls fuel s2) as [cs [Hl Hf]].
      pose proof (loop_keeps_self fuel s2) as Hk.
      rewrite Hl, Hk, Hs2, Hc2. rewrite Hs2 in Hf. split.
      * split; [intros _; right; left; reflexivity | intros _; exact Ho].
      * intros pre c post H.
        destruct pre as [|x [|y pre]]; try discriminate.
        injection H as <- <- H. split; [|right; left; reflexivity].
        rewrite Forall_forall in Hf.
        destruct (Hf (Called FetchListings c)) as [Hx | Hx];
          [rewrite H; apply in_elt | | discriminate].
        injection Hx as ->. exact Ho.
    + rewrite critical_handler_eq. flat. rewrite Hc, Ho. cbn. split.
      * split; [intro H; now contradiction H|].
        intros [H | []]. discriminate.
      * intros [|x [|y pre]] c post H; discriminate.
Qed.

(** *** Reading the listings *)

Lemma mapM_Forall2 {A B} (f : A -> outcome B) (l : list A) (bs : list B) :
  mapM f l = Ret bs <-> Forall2 (fun a b => f a = Ret b) l bs.
Proof.
  revert bs. induction l as [|a l IH]; intro bs; cbn [mapM]; split.
  - intro H. injection H as <-. constructor.
  - intro H. inversion H. reflexivity.
  - unfold obind. destruct (f a) as [b|e] eqn:Hf; [|discriminate].
    destruct (mapM f l) as [bs'|e] eqn:Hm; [|discriminate].
    intro H. injection H as <-. constructor; [exact Hf | now apply IH].
  - intro H. inversion H as [|a' b l' bs' Hf Hr]; subst.
    apply IH in Hr. unfold obind. rewrite Hf, Hr. reflexivity.
Qed.

Lemma mapM_total {A B} (f : A -> outcome B) (l : list A) :
  (forall a, In a l -> exists b, f a = Ret b) -> exists bs, mapM f l = Ret bs.
Proof.
  induction l as [|a l IH]; intro H; cbn [mapM].
  - exists []. reflexivity.
  - destruct (H a (or_introl eq_refl)) as [b Hb].
    destruct IH as [bs Hbs]; [intros x Hx; apply H; right; exact Hx|].
    exists (b :: bs). unfold obind. rewrite Hb, Hbs. reflexivity.
Qed.

Lemma Forall2_nth {A B} (R : A -> B -> Prop) (l : list A) (bs : list B) :
  Forall2 R l bs ->
  forall i a, nth_error l i = Some a ->
              exists b, nth_error bs i = Some b /\ R a b.
Proof.
  induction 1 as [|a0 b0 l bs Hr _ IH]; intros [|i] a Hn; cbn in *;
    try discriminate.
  - injection Hn as <-. exists b0. split; [reflexivity | exact Hr].
  - apply IH. exact Hn.
Qed.

Lemma parse_listings_nodes (result : json) (cards : list json) :
  card_nodes result = Ret (JArr cards) ->
  parse_listings result = mapM card_listing cards.
Proof. intro H. unfold parse_listings. rewrite H. reflexivity. Qed.



(** C9 (amended): when the listings request returns a result whose nodes
    are a list, [_fetch_listings] returns one listing per node, in the
    order of the nodes, nothing merged, dropped or moved: as many listings
    as the response has nodes, the listing at each position built from
    the node at that position; and it does return whenever every node can
    be read.  The request asks for the first 5 listed cards; the fetcher
    itself enforces no count. *)
Theorem fetch_listings_one_per_node (s : state) (result : json)
        (cards : list json) :
  fetch_request E s = Ret result ->
  card_nodes result = Ret (JArr cards) ->
  fst (_fetch_listings E s) = mapM card_listing cards
  /\ (forall ls,
         fst (_fetch_listings E s) = Ret ls ->
         length ls = length cards
         /\ Forall2 (fun c l => card_listing c = Ret l) cards ls
         /\ forall i c, nth_error cards i = Some c ->
                        exists l, nth_error ls i = Some l
                                  /\ card_listing c = Ret l)
  /\ ((forall c, In c cards -> exists l, card_listing c = Ret l) ->
      exists ls, fst (_fetch_listings E s) = Ret ls)
  /\ (exists cl, client (self s) = Some cl
                 /\ In (EvExecute cl (ListedCards 5 true))
                       (since (trace s) (trace (snd (_fetch_listings E s))))).
Proof.
  intros Hr Hn.
  assert (Hf : fst (_fetch_listings E s) = mapM card_listing cards).
  { rewrite (fetch_listings_reads_unprotected s result Hr). cbn [fst].
    apply parse_listings_nodes. exact Hn. }
  split; [exact Hf|]. split; [|split].
  - intros ls Hls. rewrite Hf in Hls. apply mapM_Forall2 in Hls.
    split; [symmetry; eapply Forall2_length; exact Hls|].
    split; [exact Hls | apply Forall2_nth; exact Hls].
  - intro Hall. rewrite Hf. apply mapM_total. exact Hall.
  - rewrite (fetch_listings_reads_unprotected s result Hr).
    unfold fetch_request, fetch_request_events in *.
    destruct (client (self s)) as [cl|]; [|discriminate].
    exists cl. split; [reflexivity|]. flat. rewrite since_app.
    left. reflexivity.
Qed.

(** *** Further properties of authentication *)

(** X1: [_get_salt] never raises and never touches the bot object: it
    issues exactly one GET, to the users URL of the e-mail address, and
    returns the [salt] of the body; every exception on the way (request,
    status, decoding, a body that is no object) is printed and turned into
    [None]. *)
Theorem get_salt_never_raises (s : state) :
  exists v log,
    _get_salt E s =
    (Ret v,
     after s (EvGet (api_users ++ opt_str (email (self s))) [content_type]
              :: log))
    /\ ((salt_reply E s = Ret v /\ log = [])
        \/ (exists e, salt_reply E s = Raise e /\ v = JNull
                      /\ log = [EvPrint ("⚠️ Error getting salt: "
                                         ++ exn_str e)])).
Proof.
  rewrite get_salt_eq. destruct (salt_reply E s) as [v|e].
  - exists v, []. split; [reflexivity | left; split; reflexivity].
  - eexists JNull, _. split; [reflexivity|].
    right. exists e. repeat split; reflexivity.
Qed.

(** X2: with a non-empty string salt, a password, a hash and a sign-in
    reply that has no errors and carries a token, [_authenticate] returns:
    it has sent one sign-in mutation with the e-mail, the bcrypt hash of
    (password, salt) and the audience "sorare-bot" over an unauthenticated
    client, and [self.client] is a client of the GraphQL endpoint whose
    headers are the bearer token, the audience and the content type. *)
Theorem authenticate_opens_bearer_session
        (s s1 : state) (salt pw hashed_pw : string) (result errors token : json) :
  _get_salt E s = (Ret (JStr salt), s1) ->
  salt <> "" ->
  password (self s) = Some pw ->
  bcrypt_hashpw E pw salt = Ret hashed_pw ->
  gql_execute E (trace s1) (Client api_graphql [content_type])
              (SignIn (email (self s)) hashed_pw "sorare-bot") = Ret result ->
  sign_in_errors result = Ret errors ->
  truthy errors = false ->
  issued_token result = Ret token ->
  _authenticate E s =
  (Ret tt,
   with_client
     (after s1 [EvExecute (Client api_graphql [content_type])
                          (SignIn (email (self s)) hashed_pw "sorare-bot")])
     (Client api_graphql
             [("Authorization", "Bearer " ++ py_str E token);
              ("JWT-AUD", "sorare-bot");
              ("Content-Type", "application/json")])).
Proof.
  intros Hsalt Hne Hpw Hh Hx He Ht Htok.
  assert (Hself : self s1 = self s).
  { pose proof (get_salt_keeps_self s) as H. rewrite Hsalt in H. exact H. }
  rewrite authenticate_eq, Hsalt.
  assert (Htr : truthy (JStr salt) = true).
  { cbn. destruct (String.eqb_spec salt ""); [contradiction | reflexivity]. }
  rewrite Htr. cbn [negb].
  unfold hashed_password. rewrite Hself, Hpw. cbn. rewrite Hh. cbn zeta.
  unfold sign_in_request, temp_client. rewrite Hx, He, Ht, Htok.
  reflexivity.
Qed.


(** X4: one call of [_authenticate] makes a single attempt: exactly one
    GET, at most one GraphQL request, no POST and no sleep - nothing is
    retried inside the method. *)
Theorem authenticate_single_attempt (s : state) :
  let evs := since (trace s) (trace (snd (_authenticate E s))) in
  count is_get evs = 1%nat
  /\ (count is_execute evs <= 1)%nat
  /\ count is_post evs = 0%nat
  /\ count is_sleep evs = 0%nat.
Proof.
  cbn zeta. rewrite authenticate_eq, get_salt_eq.
  assert (Hbase : forall log : list event,
             (log = [] \/ exists line, log = [EvPrint line]) ->
             forall tail : list event,
               (tail = [] \/ exists c q, tail = [EvExecute c q]) ->
               let evs := since (trace s)
                                (trace (after (after s (salt_get s :: log))
                                              tail)) in
               count is_get evs = 1%nat
               /\ (count is_execute evs <= 1)%nat
               /\ count is_post evs = 0%nat
               /\ count is_sleep evs = 0%nat).
  { intros log Hl tail Ht. cbn zeta. rewrite after_after.
    unfold after. cbn [trace]. rewrite since_app.
    destruct Hl as [-> | [line ->]]; destruct Ht as [-> | [c [q ->]]];
      cbn; repeat split; auto. }
  assert (Hnil : forall (log : list event),
             after s (salt_get s :: log)
             = after (after s (salt_get s :: log)) []).
  { intro log. rewrite after_nil. reflexivity. }
  destruct (salt_reply E s) as [v|e0].
  - destruct (negb (truthy v)).
    + cbn [snd]. rewrite (Hnil []). apply Hbase; left; reflexivity.
    + destruct (hashed_password E _ v) as [h|e].
      2:{ cbn [snd]. rewrite (Hnil []). apply Hbase; left; reflexivity. }
      cbn zeta.
      destruct (gql_execute E _ temp_client _) as [result|e];
        [|cbn [snd]; apply Hbase; [left; reflexivity
                                  | right; eexists _, _; reflexivity]].
      destruct (sign_in_errors result) as [errors|e];
        [|cbn [snd]; apply Hbase; [left; reflexivity
                                  | right; eexists _, _; reflexivity]].
      destruct (truthy errors);
        [cbn [snd]; apply Hbase; [left; reflexivity
                                 | right; eexists _, _; reflexivity]|].
      destruct (issued_token result) as [token|e];
        [|cbn [snd]; apply Hbase; [left; reflexivity
                                  | right; eexists _, _; reflexivity]].
      cbn [snd].
      change (trace (with_client ?x ?c)) with (trace x).
      apply Hbase; [left; reflexivity | right; eexists _, _; reflexivity].
  - cbn [snd negb truthy]. rewrite (Hnil [_]).
    apply Hbase; [right; eexists; reflexivity | left; reflexivity].
Qed.

(** [_authenticate] past the salt test, when there is no password. *)
Lemma authenticate_no_password_eq (s : state) (salt : json) :
  password (self s) = None ->
  salt_reply E s = Ret salt ->
  truthy salt = true ->
  _authenticate E s =
  (Raise (AttributeError JNull "encode"), after s [salt_get s]).
Proof.
  intros Hp Hs Ht. rewrite authenticate_eq, get_salt_eq, Hs, Ht. cbn [negb].
  unfold hashed_password.
  change (self (after s [salt_get s])) with (self s). rewrite Hp.
  reflexivity.
Qed.

(** X5: a bot without a password (SORARE_PASSWORD unset) still fetches the
    salt, then fails on [self.password.encode()]: whatever truthy salt
    came back, [_authenticate] raises the [AttributeError] of [None] right
    after the GET and sends no sign-in mutation. *)
Theorem authenticate_without_password (s : state) (salt : json) :
  password (self s) = None ->
  salt_reply E s = Ret salt ->
  truthy salt = true ->
  _authenticate E s =
  (Raise (Exn "AttributeError"
              "'NoneType' object has no attribute 'encode'"),
   after s [salt_get s])
  /\ filter is_execute (since (trace s) (trace (after s [salt_get s]))) = [].
Proof.
  intros Hp Hs Ht. split.
  - exact (authenticate_no_password_eq s salt Hp Hs Ht).
  - unfold after. cbn [trace]. rewrite since_app. reflexivity.
Qed.

(** X6: the script started without SORARE_PASSWORD never signs in and
    never polls: in every world and for every fuel, [main] returns
    (the process stops), its trace holds no GraphQL request and no sleep,
    and exactly one POST, the critical-failure alert. *)
Theorem main_without_password_stops
        (getenv : string -> option string) (fuel : nat) :
  getenv "SORARE_PASSWORD" = None ->
  fst (main E getenv fuel) = Ret Exited
  /\ filter is_execute (trace (snd (main E getenv fuel))) = []
  /\ filter is_sleep (trace (snd (main E getenv fuel))) = []
  /\ exists msg,
      filter is_post (trace (snd (main E getenv fuel)))
      = [EvPost (getenv "DISCORD_WEBHOOK")
                (JObj [("content", JStr ("🔴 Critical failure: " ++ msg))]) 5].
Proof.
  intro Hp. unfold main.
  set (s := {| self := SorareBot getenv; trace := []; calls := [] |}).
  assert (Hpw : password (self s) = None) by exact Hp.
  assert (Hauth : exists e log,
             _authenticate E s = (Raise e, after s (salt_get s :: log))
             /\ (log = [] \/ exists line, log = [EvPrint line])).
  { destruct (salt_reply E s) as [v|e0] eqn:Hs.
    - destruct (truthy v) eqn:Ht.
      + eexists _, []. split; [|left; reflexivity].
        apply authenticate_no_password_eq with (salt := v); assumption.
      + destruct (authenticate_without_salt s) as [log [Ha Hl]];
          [rewrite Hs; exact Ht|].
        exists salt_error, log. split; assumption.
    - destruct (authenticate_without_salt s) as [log [Ha Hl]];
        [rewrite Hs; exact I|].
      exists salt_error, log. split; assumption. }
  destruct Hauth as [e [log [Ha Hl]]].
  rewrite run_eq, Ha, critical_handler_eq. cbn zeta. cbn [fst snd].
  split; [reflexivity|].
  unfold after, noted. cbn [trace self]. subst s. cbn [trace self app].
  destruct Hl as [-> | [line ->]]; unfold salt_get;
    cbn [app filter is_execute is_sleep is_post];
    rewrite alert_events_executes, alert_events_sleeps;
    (split; [reflexivity|]); (split; [reflexivity|]);
    exists (exn_str e); unfold alert_events, alert_body;
    destruct (requests_post E _ _ _ 5); reflexivity.
Qed.

(** *** Further properties of the fetcher *)

(** X7: a bot without a client does not crash in [_fetch_listings]: no
    request is sent, the [AttributeError] of [None] is caught like a failed
    request, one alert carries its text and the empty list is returned. *)
Theorem fetch_listings_without_client (s : state) :
  client (self s) = None ->
  let msg := "⚠️ API request failed: "
             ++ "'NoneType' object has no attribute 'execute'" in
  _fetch_listings E s =
  (Ret [],
   after s (EvPrint msg ::
            alert_events E (trace s ++ [EvPrint msg]) (webhook (self s)) msg))
  /\ filter is_execute (since (trace s) (trace (snd (_fetch_listings E s))))
     = [].
Proof.
  intros Hc msg.
  assert (H : _fetch_listings E s =
              (Ret [],
               after s (EvPrint msg ::
                        alert_events E (trace s ++ [EvPrint msg])
                                     (webhook (self s)) msg))).
  { rewrite fetch_listings_eq. unfold fetch_request, fetch_request_events.
    rewrite Hc. cbn zeta. now flat. }
  split; [exact H|]. rewrite H. unfold after. cbn [snd trace].
  rewrite since_app. cbn [filter is_execute]. apply alert_events_executes.
Qed.

(** X8: a level the response lacks is read as empty: a result without
    [football], a [football] object without [cards], or a [cards] object
    without [nodes] gives the empty list of listings and no error. *)
Theorem absent_levels_give_no_listings (fields : list (string * json)) :
  (assoc "football" fields = None
   \/ exists football,
      assoc "football" fields = Some (JObj football)
      /\ (assoc "cards" football = None
          \/ exists cards,
             assoc "cards" football = Some (JObj cards)
             /\ assoc "nodes" cards = None)) ->
  parse_listings (JObj fields) = Ret [].
Proof.
  unfold parse_listings, card_nodes.
  intros [H | [football [H [H2 | [cards [H2 H3]]]]]]; cbn; rewrite H; cbn.
  - reflexivity.
  - rewrite H2. reflexivity.
  - rewrite H2. cbn. rewrite H3. reflexivity.
Qed.

(** X9: the defaults of [.get] cover missing keys only: when [football] is
    present but is not an object (JSON null, say), reading the result
    raises the [AttributeError] of [.get] on that value. *)
Theorem non_object_level_raises (fields : list (string * json)) (v : json) :
  assoc "football" fields = Some v ->
  (forall l, v <> JObj l) ->
  parse_listings (JObj fields) = Raise (AttributeError v "get").
Proof.
  intros H Hv. unfold parse_listings, card_nodes. cbn. rewrite H. cbn.
  destruct v; try reflexivity. contradiction (Hv fields0 eq_refl).
Qed.

(** X10: price and currency come from the first sale offer alone: whatever
    follows it in [edges], the listing of a card carries the amount and the
    currency of [edges[0]] next to the card's slug and player name. *)
Theorem first_offer_sets_price (c first_offer : json) (others : list json)
        (amount cur sl pl name : json) :
  sale_edges c = Ret (JArr (first_offer :: others)) ->
  offer_price first_offer "amount" = Ret amount ->
  offer_price first_offer "currency" = Ret cur ->
  py_item c "slug" = Ret sl ->
  py_item c "player" = Ret pl ->
  py_item pl "displayName" = Ret name ->
  card_listing c =
  Ret {| slug := sl; price := amount; currency := cur; player := name |}.
Proof.
  intros He Ha Hc Hs Hp Hn. unfold card_listing. rewrite He. cbn.
  unfold offer_price in Ha, Hc. rewrite Ha. cbn. rewrite Hc. cbn.
  rewrite Hs. cbn. rewrite Hp. cbn. rewrite Hn. reflexivity.
Qed.

(** X11: the sentinel covers every falsy [price_data], not only the empty
    list: a card without [saleOffers], a [saleOffers] object without
    [edges], or [edges] holding a falsy value (null, an empty list) gets
    price "N/A" and currency "N/A". *)
Theorem falsy_edges_yield_sentinel (fields : list (string * json))
        (sl pl name : json) :
  (assoc "saleOffers" fields = None
   \/ exists offers,
      assoc "saleOffers" fields = Some (JObj offers)
      /\ (assoc "edges" offers = None
          \/ exists v, assoc "edges" offers = Some v /\ truthy v = false)) ->
  py_item (JObj fields) "slug" = Ret sl ->
  py_item (JObj fields) "player" = Ret pl ->
  py_item pl "displayName" = Ret name ->
  card_listing (JObj fields) =
  Ret {| slug := sl; price := JStr "N/A"; currency := JStr "N/A";
         player := name |}.
Proof.
  intros H Hs Hp Hn.
  assert (He : exists pd, sale_edges (JObj fields) = Ret pd
                          /\ truthy pd = false).
  { unfold sale_edges. cbn.
    destruct H as [H | [offers [H [H2 | [v [H2 Hv]]]]]]; rewrite H; cbn.
    - exists (JArr []). split; reflexivity.
    - rewrite H2. exists (JArr []). split; reflexivity.
    - rewrite H2. exists v. split; [reflexivity | exact Hv]. }
  destruct He as [pd [He Hf]].
  unfold card_listing. rewrite He. unfold obind at 1.
  unfold offer_field. rewrite Hf. unfold obind.
  rewrite Hs, Hp, Hn. reflexivity.
Qed.

(** *** Further properties of the run loop *)

Lemma notify_eq (ls : list listing) (s : state) :
  for_each ls (fun c => print (card_message E c) ;;
                        _send_alert E (card_message E c)) s
  = (Ret tt, after s (notify_events E (trace s) (webhook (self s)) ls)).
Proof.
  revert s. induction ls as [|c ls IH]; intro s; cbn [for_each notify_events].
  - unfold ret. rewrite after_nil. reflexivity.
  - unfold bind at 1. unfold bind at 1. unfold print, emit.
    rewrite send_alert_eq, after_after. rewrite IH, after_after.
    reflexivity.
Qed.

Lemma notify_events_posts (tr : list event) (w : option string)
      (ls : list listing) :
  filter is_post (notify_events E tr w ls) = map (card_post E w) ls.
Proof.
  revert tr. induction ls as [|c ls IH]; intro tr; cbn [notify_events map];
    [reflexivity|].
  cbn zeta. rewrite filter_app, IH. cbn [filter is_post].
  unfold alert_events at 1, card_post at 1.
  destruct (requests_post E _ w _ 5); reflexivity.
Qed.

Lemma notify_events_sleeps (tr : list event) (w : option string)
      (ls : list listing) :
  filter is_sleep (notify_events E tr w ls) = [].
Proof.
  revert tr. induction ls as [|c ls IH]; intro tr; cbn [notify_events];
    [reflexivity|].
  cbn zeta. rewrite filter_app, IH. cbn [filter is_sleep].
  rewrite alert_events_sleeps. reflexivity.
Qed.

(** X12: a cycle whose fetch returns listings sends one webhook message
    per listing, in the order of the listings, each holding that listing's
    message (nothing batched, nothing skipped, a failed POST included),
    then sleeps once, for 300 seconds. *)
Theorem cycle_notifies_each_listing (s s1 : state) (ls : list listing) :
  _fetch_listings E s = (Ret ls, s1) ->
  let sent := notify_events E (trace s1) (webhook (self s)) ls in
  cycle E s =
  (Ret tt,
   after (noted s1 [Called FetchListings (client (self s));
                    Returned FetchListings])
         (sent ++ [EvSleep 300]))
  /\ filter is_post (sent ++ [EvSleep 300])
     = map (fun c => EvPost (webhook (self s))
                            (JObj [("content", JStr (card_message E c))]) 5)
           ls
  /\ filter is_sleep (sent ++ [EvSleep 300]) = [EvSleep 300].
Proof.
  intros H sent.
  assert (Hself : self s1 = self s).
  { pose proof (fetch_listings_keeps_self s) as Hk. rewrite H in Hk.
    exact Hk. }
  split; [|split].
  - unfold cycle, try_except, cycle_body. unfold bind at 1.
    rewrite call_eq by apply fetch_listings_oblivious. rewrite H.
    unfold bind. rewrite notify_eq. unfold sleep, emit.
    rewrite after_after. subst sent.
    change (self (noted s1 ?cs)) with (self s1).
    change (trace (noted s1 ?cs)) with (trace s1).
    rewrite Hself. reflexivity.
  - rewrite filter_app. subst sent. rewrite notify_events_posts.
    cbn [filter is_post]. rewrite app_nil_r. reflexivity.
  - rewrite filter_app. subst sent. rewrite notify_events_sleeps.
    reflexivity.
Qed.

(** X13: when the response cannot be read - one node that fails is
    enough - the cycle announces no card at all: its only POST is the
    "Unexpected error" alert with the text of the exception, and its only
    sleep lasts 60 seconds. *)
Theorem unreadable_response_suppresses_cards (s : state) (result : json)
        (e : exn) :
  fetch_request E s = Ret result ->
  parse_listings result = Raise e ->
  let evs := since (trace s) (trace (snd (cycle E s))) in
  fst (cycle E s) = Ret tt
  /\ filter is_post evs
     = [EvPost (webhook (self s))
               (JObj [("content",
                       JStr ("⚠️ Unexpected error: " ++ exn_str e))]) 5]
  /\ filter is_sleep evs = [EvSleep 60].
Proof.
  intros Hr Hp evs. split; [apply cycle_returns|].
  assert (Hc : cycle E s =
               cycle_handler E e
                 (noted (after s (fetch_request_events s
                                  ++ [EvPrint ("API Response: "
                                               ++ py_str E result)]))
                        [Called FetchListings (client (self s))])).
  { unfold cycle, try_except, cycle_body. unfold bind at 1.
    rewrite call_eq by apply fetch_listings_oblivious.
    rewrite fetch_listings_eq, Hr, Hp. reflexivity. }
  subst evs. rewrite Hc, cycle_handler_eq. cbn zeta. cbn [snd].
  unfold after, noted. cbn [trace self].
  rewrite <- app_assoc, since_app, !filter_app.
  assert (Hq : filter is_post (fetch_request_events s) = []
               /\ filter is_sleep (fetch_request_events s) = []).
  { unfold fetch_request_events. destruct (client (self s)); split;
      reflexivity. }
  destruct Hq as [Hq1 Hq2]. rewrite Hq1, Hq2.
  cbn [filter is_post is_sleep app].
  rewrite !filter_app, alert_events_sleeps. cbn [filter is_post is_sleep app].
  rewrite app_nil_r. split; [|reflexivity].
  unfold alert_events, alert_body.
  destruct (requests_post E _ _ _ 5); reflexivity.
Qed.

(** X14: [run] never lets an exception out, and it stops for one reason
    only: it returns exactly when [_authenticate] raised; when
    [_authenticate] returned, the started alert is sent, the banner is
    printed and the loop is entered, still looping whatever the fuel. *)
Theorem run_stops_only_on_auth_failure (fuel : nat) (s : state) :
  fst (run E fuel s) =
  match fst (_authenticate E s) with
  | Ret _ => Ret StillLooping
  | Raise _ => Ret Exited
  end
  /\ (forall s1,
         _authenticate E s = (Ret tt, s1) ->
         exists rest,
           trace (snd (run E fuel s))
           = (trace s1
              ++ alert_events E (trace s1) (webhook (self s1)) started_message
              ++ EvPrint "🟢 Bot is running..." :: rest)%list).
Proof.
  split.
  - rewrite run_eq. destruct (_authenticate E s) as [[[]|e] s1]; cbn [fst].
    + cbn zeta. apply loop_returns.
    + rewrite critical_handler_eq. reflexivity.
  - intros s1 Ha. rewrite run_eq, Ha. cbn zeta.
    match goal with
    | |- context [loop E fuel ?st] =>
        destruct (loop_appends (fun _ => True)) with (fuel := fuel) (s := st)
          as [evs [Ht _]]; try (intros; exact I); [split; exact I|];
        rewrite Ht
    end.
    exists evs. unfold after, noted. cbn [trace self].
    rewrite <- !app_assoc. reflexivity.
Qed.

Lemma cycle_calls_exact (s : state) :
  exists cs,
    calls (snd (cycle E s))
    = (calls s ++ Called FetchListings (client (self s)) :: cs)%list
    /\ (cs = [] \/ cs = [Returned FetchListings]).
Proof.
  unfold cycle, try_except, cycle_body. unfold bind at 1.
  rewrite call_eq by apply fetch_listings_oblivious.
  pose proof (fetch_listings_keeps_calls s) as Hc.
  destruct (_fetch_listings E s) as [[ls|e] s1]; cbn [snd] in Hc.
  - exists [Returned FetchListings]. split; [|right; reflexivity].
    unfold bind. rewrite notify_eq. unfold sleep, emit. cbn [snd].
    unfold after, noted. cbn [calls]. rewrite Hc. reflexivity.
  - exists []. split; [|left; reflexivity].
    rewrite cycle_handler_eq. cbn zeta. cbn [snd].
    unfold after, noted. cbn [calls]. rewrite Hc. reflexivity.
Qed.

Lemma loop_fetches (fuel : nat) (s : state) :
  exists cs,
    calls (snd (loop E fuel s)) = (calls s ++ cs)%list
    /\ length (filter (is_called FetchListings) cs) = fuel
    /\ filter (is_called Authenticate) cs = [].
Proof.
  revert s. induction fuel as [|fuel IH]; intro s; cbn [loop].
  - exists []. split; [symmetry; apply app_nil_r | split; reflexivity].
  - unfold bind.
    destruct (cycle_calls_exact s) as [cs [Hc Hs]].
    pose proof (cycle_returns s) as Hr.
    destruct (cycle E s) as [[[]|e] s1]; cbn [fst snd] in *; [|discriminate].
    destruct (IH s1) as [cs' [Hc' [Hn Ha]]].
    exists ((Called FetchListings (client (self s)) :: cs) ++ cs')%list.
    split; [rewrite Hc', Hc, <- app_assoc; reflexivity|].
    rewrite !filter_app, length_app, Hn, Ha.
    destruct Hs as [-> | ->]; split; reflexivity.
Qed.

(** X15: whatever happens, [run] calls [_authenticate] exactly once - a
    session is never renewed - and, once authenticated, it calls
    [_fetch_listings] exactly once per cycle; after a failed
    authentication it never calls it. *)
Theorem run_authenticates_once (fuel : nat) (s : state) :
  exists cs,
    calls (snd (run E fuel s)) = (calls s ++ cs)%list
    /\ length (filter (is_called Authenticate) cs) = 1%nat
    /\ length (filter (is_called FetchListings) cs)
       = match fst (_authenticate E s) with
         | Ret _ => fuel
         | Raise _ => 0%nat
         end.
Proof.
  rewrite run_eq.
  pose proof (authenticate_keeps_calls s) as Hc.
  destruct (_authenticate E s) as [[[]|e] s1]; cbn [fst snd] in Hc |- *.
  - cbn zeta.
    match goal with
    | |- context [loop E fuel ?st] =>
        destruct (loop_fetches fuel st) as [cs [Hl [Hn Ha]]]; rewrite Hl
    end.
    exists ([Called Authenticate (client (self s)); Returned Authenticate]
            ++ cs)%list.
    unfold after, noted. cbn [calls]. rewrite Hc, <- app_assoc.
    split; [reflexivity|]. rewrite !filter_app, !length_app, Hn, Ha.
    split; reflexivity.
  - rewrite critical_handler_eq. cbn zeta. cbn [snd].
    exists [Called Authenticate (client (self s))].
    unfold after, noted. cbn [calls]. rewrite Hc.
    repeat split; reflexivity.
Qed.

(** X16: an offer that is present must be complete: when [edges] is not
    empty and its first offer has no readable amount, the exception of that
    lookup is the outcome of the card - no sentinel is substituted. *)
Theorem broken_first_offer_raises (c first_offer : json) (others : list json)
        (e : exn) :
  sale_edges c = Ret (JArr (first_offer :: others)) ->
  offer_price first_offer "amount" = Raise e ->
  card_listing c = Raise e.
Proof.
  intros He Ha. unfold card_listing. rewrite He. cbn.
  unfold offer_price in Ha. rewrite Ha. reflexivity.
Qed.

Lemma notify_events_executes (tr : list event) (w : option string)
      (ls : list listing) :
  filter is_execute (notify_events E tr w ls) = [].
Proof.
  revert tr. induction ls as [|c ls IH]; intro tr; cbn [notify_events];
    [reflexivity|].
  cbn zeta. rewrite filter_app, IH. cbn [filter is_execute].
  rewrite alert_events_executes. reflexivity.
Qed.

Lemma cycle_paces (s : state) :
  exists evs,
    trace (snd (cycle E s)) = (trace s ++ evs)%list
    /\ count is_sleep evs = 1%nat
    /\ (count is_execute evs <= 1)%nat.
Proof.
  assert (Hre : filter is_sleep (fetch_request_events s) = []
                /\ (length (filter is_execute (fetch_request_events s))
                    <= 1)%nat).
  { unfold fetch_request_events. destruct (client (self s)); split; cbn;
      auto. }
  destruct Hre as [Hr1 Hr2].
  unfold cycle, try_except, cycle_body. unfold bind at 1.
  rewrite call_eq by apply fetch_listings_oblivious.
  rewrite fetch_listings_eq.
  destruct (fetch_request E s) as [result|e].
  - destruct (parse_listings result) as [ls|e].
    + unfold bind. rewrite notify_eq. unfold sleep, emit. cbn [snd].
      eexists. unfold after, noted. cbn [trace self].
      rewrite <- !app_assoc. split; [reflexivity|].
      unfold count. rewrite !filter_app, Hr1, !length_app.
      rewrite notify_events_sleeps, notify_events_executes.
      cbn. split; [reflexivity | lia].
    + rewrite cycle_handler_eq. cbn zeta. cbn [snd].
      eexists. unfold after, noted. cbn [trace self].
      rewrite <- !app_assoc. split; [reflexivity|].
      unfold count. rewrite !filter_app, Hr1, !length_app.
      cbn [filter is_sleep is_execute app length].
      rewrite ?filter_app, alert_events_sleeps, alert_events_executes.
      cbn. split; [reflexivity | lia].
  - cbn zeta. unfold bind. cbn [for_each]. unfold ret, sleep, emit.
    cbn [snd]. eexists. unfold after, noted. cbn [trace self].
    rewrite <- !app_assoc. split; [reflexivity|].
    unfold count. rewrite !filter_app, Hr1, !length_app.
    cbn [filter is_sleep is_execute app length].
    rewrite ?filter_app, alert_events_sleeps, alert_events_executes.
    cbn. split; [reflexivity | lia].
Qed.

(** X17: the loop paces itself: over any number of cycles, whatever
    fails, it sleeps exactly once per cycle and sends at most one GraphQL
    request per cycle - there is no path around the sleep back to the API. *)
Theorem loop_paces_itself (fuel : nat) (s : state) :
  let evs := since (trace s) (trace (snd (loop E fuel s))) in
  count is_sleep evs = fuel /\ (count is_execute evs <= fuel)%nat.
Proof.
  cbn zeta.
  assert (H : exists evs,
             trace (snd (loop E fuel s)) = (trace s ++ evs)%list
             /\ count is_sleep evs = fuel
             /\ (count is_execute evs <= fuel)%nat).
  { revert s. induction fuel as [|fuel IH]; intro s; cbn [loop].
    - exists []. split; [symmetry; apply app_nil_r | split; cbn; auto].
    - unfold bind. destruct (cycle_paces s) as [evs [Ht [Hs Hx]]].
      pose proof (cycle_returns s) as Hr.
      destruct (cycle E s) as [[[]|e] s1]; cbn [fst snd] in *;
        [|discriminate].
      destruct (IH s1) as [evs' [Ht' [Hs' Hx']]].
      exists (evs ++ evs')%list. split.
      + rewrite Ht', Ht, app_assoc. reflexivity.
      + rewrite !count_app. split; lia. }
  destruct H as [evs [Ht [Hs Hx]]]. rewrite Ht, since_app.
  split; assumption.
Qed.

End Properties.

(** ** The properties at work on the sample worlds *)

Lemma fetch_request_failure_absorbed_witness :
  fetch_request env_down signed_in = Raise connection_error
  /\ fst (_fetch_listings env_down signed_in) = Ret [].
Proof.
  split; [reflexivity|].
  exact (f_equal fst
           (proj1 (fetch_request_failure_absorbed
                     env_down signed_in connection_error eq_refl))).
Defined.

(** A node without [slug]: the [KeyError] leaves [_fetch_listings], and the
    cycle ends in the 60-second sleep of the handler, not the 300-second
    one. *)
Lemma fetch_listings_raises_on_card_without_slug :
  fst (_fetch_listings (env_listing [card_without_slug]) signed_in)
  = Raise (KeyError "slug")
  /\ last (trace (snd (cycle (env_listing [card_without_slug]) signed_in)))
          (EvSleep 0)
     = EvSleep 60.
Proof. split; vm_compute; reflexivity. Qed.

(** The webhook answers 500: nothing is caught and nothing is printed. *)
Lemma alert_http_error_not_logged :
  (exists r, requests_post env_webhook_500 [] (webhook (self signed_in))
                           (alert_body "hello") 5 = Ret r
             /\ status_code r = 500)
  /\ fst (_send_alert env_webhook_500 "hello" signed_in) = Ret tt
  /\ filter is_print (trace (snd (_send_alert env_webhook_500 "hello"
                                              signed_in))) = [].
Proof.
  split; [eexists; split; reflexivity|]. split; vm_compute; reflexivity.
Qed.




Lemma sign_in_errors_abort_witness :
  sign_in_errors (JObj [("signIn", JObj [("errors", invalid_credentials)])])
  = Ret invalid_credentials
  /\ fst (_authenticate env_rejected fresh)
     = Raise (Exn "Exception" "Auth failed: <list>")
  /\ client (self (snd (_authenticate env_rejected fresh))) = None.
Proof.
  split; [reflexivity|].
  pose proof (sign_in_errors_abort
                env_rejected fresh (after fresh [salt_get fresh])
                (JStr "$2a$11$abc123") "$2a$11$abc123hash"
                (JObj [("signIn", JObj [("errors", invalid_credentials)])])
                (JObj [("message", JStr "Invalid credentials")]) []
                eq_refl eq_refl eq_refl eq_refl eq_refl) as [Ha [_ [_ Hc]]].
  split.
  - exact (f_equal fst Ha).
  - exact (eq_trans (f_equal (fun x => client (self (snd x))) Ha)
                    (Hc eq_refl)).
Defined.

Lemma cycle_error_backoff_witness :
  cycle_body (env_listing [card_without_slug]) signed_in
  = (Raise (KeyError "slug"),
     snd (cycle_body (env_listing [card_without_slug]) signed_in))
  /\ forall fuel,
      loop (env_listing [card_without_slug]) (S fuel) signed_in
      = loop (env_listing [card_without_slug]) fuel
             (snd (cycle (env_listing [card_without_slug]) signed_in)).
Proof.
  assert (H : cycle_body (env_listing [card_without_slug]) signed_in
              = (Raise (KeyError "slug"),
                 snd (cycle_body (env_listing [card_without_slug])
                                 signed_in))).
  { vm_compute. reflexivity. }
  split; [exact H|].
  destruct (cycle_error_backoff (env_listing [card_without_slug]) signed_in
                                _ _ H) as [Hc [_ [_ [_ [Hl _]]]]].
  intro fuel. rewrite (Hl fuel), Hc. reflexivity.
Defined.

Lemma auth_failure_is_terminal_witness :
  _authenticate env_no_network fresh
  = (Raise salt_error, snd (_authenticate env_no_network fresh))
  /\ forall fuel, fst (run env_no_network fuel fresh) = Ret Exited.
Proof.
  assert (H : _authenticate env_no_network fresh
              = (Raise salt_error, snd (_authenticate env_no_network fresh))).
  { vm_compute. reflexivity. }
  split; [exact H|].
  intro fuel.
  exact (f_equal fst
           (proj1 (auth_failure_is_terminal env_no_network fresh _ _ H) fuel)).
Defined.

Lemma session_invariant_witness :
  reachable (env_listing [mbappe]) (Some "bot@example.org") (Some "secret")
            None (snd (run (env_listing [mbappe]) 2
                           (boot (Some "bot@example.org") (Some "secret")
                                 None)))
  /\ In (Returned Authenticate)
        (calls (snd (run (env_listing [mbappe]) 2
                         (boot (Some "bot@example.org") (Some "secret")
                               None)))).
Proof.
  assert (H : reachable (env_listing [mbappe]) (Some "bot@example.org")
                        (Some "secret") None
                        (snd (run (env_listing [mbappe]) 2
                                  (boot (Some "bot@example.org")
                                        (Some "secret") None)))).
  { right. exists 2%nat. reflexivity. }
  split; [exact H|].
  apply (proj1 (session_invariant (env_listing [mbappe]) _ _ _ _ H)).
  vm_compute. discriminate.
Defined.

Lemma fetch_listings_one_per_node_witness :
  fetch_request (env_listing [mbappe; messi]) signed_in
  = Ret (cards_response [mbappe; messi])
  /\ fst (_fetch_listings (env_listing [mbappe; messi]) signed_in)
     = mapM card_listing [mbappe; messi].
Proof.
  split; [reflexivity|].
  exact (proj1 (fetch_listings_one_per_node
                  (env_listing [mbappe; messi]) signed_in
                  (cards_response [mbappe; messi]) [mbappe; messi]
                  eq_refl eq_refl)).
Defined.

(** The API lists a single card: the fetcher returns one listing, not 5. *)
Lemma fetch_listings_single_card :
  fst (_fetch_listings (env_listing [mbappe]) signed_in)
  = Ret [{| slug := JStr "mbappe-2023-rare-7"; price := JStr "1000000";
            currency := JStr "WEI"; player := JStr "K. Mbappe" |}]
  /\ (exists ls,
         fst (_fetch_listings (env_listing [mbappe]) signed_in) = Ret ls
         /\ length ls <> 5%nat).
Proof.
  split; [vm_compute; reflexivity|].
  eexists. split; [vm_compute; reflexivity|]. cbn. discriminate.
Qed.

Lemma falsy_salt_is_missing_salt_witness :
  truthy (JStr "") = false
  /\ _authenticate env_empty_salt fresh
     = (Raise salt_error, after fresh [salt_get fresh]).
Proof.
  split; [reflexivity|].
  exact (proj1 (falsy_salt_is_missing_salt
                  env_empty_salt fresh
                  (ok_response 200 (JObj [("salt", JStr "")]))
                  [("salt", JStr "")] (JStr "")
                  eq_refl eq_refl eq_refl eq_refl eq_refl)).
Defined.

Lemma authenticate_opens_bearer_session_witness :
  _get_salt (env_listing []) fresh
  = (Ret (JStr "$2a$11$abc123"), after fresh [salt_get fresh])
  /\ client (self (snd (_authenticate (env_listing []) fresh)))
     = Some session.
Proof.
  split; [reflexivity|].
  assert (Hne : "$2a$11$abc123" <> "") by discriminate.
  exact (f_equal (fun x => client (self (snd x)))
           (authenticate_opens_bearer_session
              (env_listing []) fresh (after fresh [salt_get fresh])
              "$2a$11$abc123" "secret" "$2a$11$abc123hash"
              (JObj [("signIn",
                      JObj [("jwtToken", JObj [("token", JStr "tok")]);
                            ("errors", JArr [])])])
              (JArr []) (JStr "tok")
              eq_refl Hne eq_refl eq_refl eq_refl eq_refl eq_refl eq_refl)).
Defined.

Lemma authenticate_without_password_witness :
  password (self fresh_no_password) = None
  /\ fst (_authenticate (env_listing []) fresh_no_password)
     = Raise (Exn "AttributeError"
                  "'NoneType' object has no attribute 'encode'").
Proof.
  split; [reflexivity|].
  exact (f_equal fst
           (proj1 (authenticate_without_password
                     (env_listing []) fresh_no_password (JStr "$2a$11$abc123")
                     eq_refl eq_refl eq_refl))).
Defined.

Lemma main_without_password_stops_witness :
  getenv_no_password "SORARE_PASSWORD" = None
  /\ fst (main (env_listing [mbappe]) getenv_no_password 3) = Ret Exited.
Proof.
  split; [reflexivity|].
  exact (proj1 (main_without_password_stops
                  (env_listing [mbappe]) getenv_no_password 3 eq_refl)).
Defined.

Lemma fetch_listings_without_client_witness :
  client (self fresh) = None
  /\ fst (_fetch_listings (env_listing [mbappe]) fresh) = Ret [].
Proof.
  split; [reflexivity|].
  exact (f_equal fst
           (proj1 (fetch_listings_without_client
                     (env_listing [mbappe]) fresh eq_refl))).
Defined.

Lemma absent_levels_give_no_listings_witness :
  assoc "cards" [("status", JStr "ok")] = None
  /\ parse_listings (JObj [("football", JObj [("status", JStr "ok")])])
     = Ret [].
Proof.
  split; [reflexivity|].
  apply absent_levels_give_no_listings.
  right. exists [("status", JStr "ok")].
  split; [reflexivity | left; reflexivity].
Defined.

Lemma non_object_level_raises_witness :
  assoc "football" [("football", JNull)] = Some JNull
  /\ parse_listings (JObj [("football", JNull)])
     = Raise (Exn "AttributeError"
                  "'NoneType' object has no attribute 'get'").
Proof.
  split; [reflexivity|].
  apply (non_object_level_raises [("football", JNull)] JNull eq_refl).
  intros l H. discriminate H.
Defined.

Lemma first_offer_sets_price_witness :
  sale_edges two_offers = Ret (JArr [offer "1000000" "WEI"; offer "5" "ETH"])
  /\ card_listing two_offers
     = Ret {| slug := JStr "haaland-2023-rare-3"; price := JStr "1000000";
              currency := JStr "WEI"; player := JStr "E. Haaland" |}.
Proof.
  split; [reflexivity|].
  exact (first_offer_sets_price
           two_offers (offer "1000000" "WEI") [offer "5" "ETH"]
           (JStr "1000000") (JStr "WEI") (JStr "haaland-2023-rare-3")
           (JObj [("displayName", JStr "E. Haaland")]) (JStr "E. Haaland")
           eq_refl eq_refl eq_refl eq_refl eq_refl eq_refl).
Defined.

Lemma falsy_edges_yield_sentinel_witness :
  assoc "saleOffers" card_without_offers = None
  /\ card_listing (JObj card_without_offers)
     = Ret {| slug := JStr "kane-2023-rare-9"; price := JStr "N/A";
              currency := JStr "N/A"; player := JStr "H. Kane" |}.
Proof.
  split; [reflexivity|].
  exact (falsy_edges_yield_sentinel
           card_without_offers (JStr "kane-2023-rare-9")
           (JObj [("displayName", JStr "H. Kane")]) (JStr "H. Kane")
           (or_introl eq_refl) eq_refl eq_refl eq_refl).
Defined.

Lemma cycle_notifies_each_listing_witness :
  fst (_fetch_listings (env_listing [mbappe; messi]) signed_in)
  = Ret [{| slug := JStr "mbappe-2023-rare-7"; price := JStr "1000000";
            currency := JStr "WEI"; player := JStr "K. Mbappe" |};
         {| slug := JStr "messi-2023-rare-1"; price := JStr "N/A";
            currency := JStr "N/A"; player := JStr "L. Messi" |}]
  /\ fst (cycle (env_listing [mbappe; messi]) signed_in) = Ret tt.
Proof.
  split; [vm_compute; reflexivity|].
  assert (H : _fetch_listings (env_listing [mbappe; messi]) signed_in
              = (Ret [{| slug := JStr "mbappe-2023-rare-7";
                         price := JStr "1000000"; currency := JStr "WEI";
                         player := JStr "K. Mbappe" |};
                      {| slug := JStr "messi-2023-rare-1";
                         price := JStr "N/A"; currency := JStr "N/A";
                         player := JStr "L. Messi" |}],
                 snd (_fetch_listings (env_listing [mbappe; messi])
                                      signed_in))).
  { vm_compute. reflexivity. }
  exact (f_equal fst
           (proj1 (cycle_notifies_each_listing
                     (env_listing [mbappe; messi]) signed_in _ _ H))).
Defined.

Lemma unreadable_response_suppresses_cards_witness :
  parse_listings (cards_response [mbappe; card_without_slug])
  = Raise (KeyError "slug")
  /\ filter is_post
            (since (trace signed_in)
                   (trace (snd (cycle (env_listing [mbappe; card_without_slug])
                                      signed_in))))
     = [EvPost (Some "https://discord.test/hook")
               (JObj [("content", JStr ("⚠️ Unexpected error: " ++ "'slug'"))])
               5].
Proof.
  split; [reflexivity|].
  exact (proj1 (proj2 (unreadable_response_suppresses_cards
                         (env_listing [mbappe; card_without_slug]) signed_in
                         (cards_response [mbappe; card_without_slug])
                         (KeyError "slug") eq_refl eq_refl))).
Defined.

Lemma broken_first_offer_raises_witness :
  offer_price (JObj [("node", JObj [])]) "amount" = Raise (KeyError "price")
  /\ card_listing (card "kane-2023-rare-9" "H. Kane" [JObj [("node", JObj [])]])
     = Raise (KeyError "price").
Proof.
  split; [reflexivity|].
  exact (broken_first_offer_raises
           (card "kane-2023-rare-9" "H. Kane" [JObj [("node", JObj [])]])
           (JObj [("node", JObj [])]) [] (KeyError "price")
           eq_refl eq_refl).
Defined.
